(** * rhythmic-cloud-player: the playback control bar and the movie detail page

    A shallow embedding of the two React components of the repository:

    - the playback control bar ([MusicPlayer]): the pure helpers
      [formatTime] and [effectiveDuration] and the seek slider's
      [disabled] attribute;
    - the movie detail page ([MovieDetail]): the component state, the
      async handlers split at their [await]s, and the event loop that
      interleaves them.

    JavaScript numbers are modelled by [Js.number]: NaN, the two
    infinities and the finite values.  Finite doubles are embedded in the
    canonical rationals [Qc]; the rounding of a floating-point division is
    not modelled, and there is no negative zero (the code below never
    tells it apart from zero). *)

From Stdlib Require Import Bool List String Ascii ZArith QArith Qcanon Qround Lia.
From Stdlib Require Import DecimalString.
Import ListNotations.
Local Open Scope string_scope.

(** ** JavaScript values *)

Module Js.

Inductive number : Type :=
| NaN
| PosInfinity
| NegInfinity
| Finite (q : Qc).

Definition of_Z (z : Z) : number := Finite (Q2Qc (inject_Z z)).

Definition zero : number := of_Z 0.

(** [isNaN(x)] *)
Definition isNaN (x : number) : bool :=
  match x with NaN => true | _ => false end.

(** ToBoolean on a number: NaN and 0 are falsy. *)
Definition truthy (x : number) : bool :=
  match x with
  | NaN => false
  | PosInfinity | NegInfinity => true
  | Finite q => match (q ?= Q2Qc 0)%Qc with Eq => false | _ => true end
  end.

(** [a < b]; any comparison with NaN is false. *)
Definition lt (a b : number) : bool :=
  match a, b with
  | NaN, _ | _, NaN => false
  | PosInfinity, _ => false
  | _, NegInfinity => false
  | NegInfinity, _ => true
  | Finite _, PosInfinity => true
  | Finite p, Finite q => match (p ?= q)%Qc with Lt => true | _ => false end
  end.

(** [a > b] *)
Definition gt (a b : number) : bool := lt b a.

(** [a === b] on numbers: NaN is not equal to itself. *)
Definition strict_eq (a b : number) : bool :=
  match a, b with
  | PosInfinity, PosInfinity => true
  | NegInfinity, NegInfinity => true
  | Finite p, Finite q => match (p ?= q)%Qc with Eq => true | _ => false end
  | _, _ => false
  end.

(** [a / d] for a finite literal [d > 0].  The quotient is exact; the
    double the code computes is the rounding of it, and the two have the
    same [Math.floor] for a double below 2^52. *)
Definition div (a : number) (d : Qc) : number :=
  match a with
  | Finite q => Finite (q / d)%Qc
  | other => other
  end.

(** Rounding towards zero, as the remainder operator does. *)
Definition Qtrunc (q : Q) : Z :=
  if Qle_bool 0 q then Qfloor q else Qceiling q.

(** [a % d] for a finite literal [d > 0]: the result takes the sign of
    the dividend; the remainder of an infinity is NaN. *)
Definition rem (a : number) (d : Qc) : number :=
  match a with
  | Finite q => Finite (q - d * Q2Qc (inject_Z (Qtrunc (q / d)%Qc)))%Qc
  | _ => NaN
  end.

(** The results of [Math.floor] are kept in their own type, the
    integral numbers, so that the number-to-string conversion is only
    needed where it is a plain decimal numeral. *)
Inductive integral : Type :=
| INaN
| IPosInfinity
| INegInfinity
| Int (z : Z).

Definition Math_floor (x : number) : integral :=
  match x with
  | NaN => INaN
  | PosInfinity => IPosInfinity
  | NegInfinity => INegInfinity
  | Finite q => Int (Qfloor q)
  end.

(** [i < k] for an integer literal [k]. *)
Definition int_lt (i : integral) (k : Z) : bool :=
  match i with
  | INaN => false
  | IPosInfinity => false
  | INegInfinity => true
  | Int z => (z <? k)%Z
  end.

(** Number::toString, as a template literal applies it, on integers below
    10^21, which print as plain decimal numerals (from 10^21 on the code
    prints an exponent form, which is not modelled). *)
Definition toString (i : integral) : string :=
  match i with
  | INaN => "NaN"
  | IPosInfinity => "Infinity"
  | INegInfinity => "-Infinity"
  | Int z => NilZero.string_of_int (Z.to_int z)
  end.

(** ToBoolean on [string | null]: null and the empty string are falsy. *)
Definition truthy_str (s : option string) : bool :=
  match s with
  | Some s => negb (s =? "")
  | None => false
  end.

End Js.

(** ** The playback control bar (MusicPlayer) *)

Module MusicPlayer.
Import Js.

(** Modelled from the spec: the [Track] type of services/musicService,
    which the component imports, is not among the sources.  A content
    record has an identifier, a title, subtitle fields, an artwork URL, a
    playable URL and a duration in seconds; the field names are those of
    the demo track literal of the component.  [duration] is [None] when
    the field is undefined. *)
Record Track : Type := mkTrack {
  id : string;
  title : string;
  artist : string;
  album : string;
  cover : string;
  audioUrl : string;
  duration : option number
}.

Definition sixty : Qc := Q2Qc (inject_Z 60).

(** [formatTime]: "Format time in MM:SS". *)
Definition formatTime (seconds : number) : string :=
  if negb (truthy seconds) || isNaN seconds then "0:00"
  else
    let mins := Math_floor (div seconds sixty) in
    let secs := Math_floor (rem seconds sixty) in
    toString mins ++ ":" ++ (if int_lt secs 10 then "0" else "") ++ toString secs.

(** [currentTrack?.duration || 0] *)
Definition nominalDuration (currentTrack : option Track) : option number :=
  match currentTrack with
  | Some t => duration t
  | None => None
  end.

Definition or_zero (v : option number) : number :=
  match v with
  | Some n => if truthy n then n else zero
  | None => zero
  end.

(** [const effectiveDuration = duration > 0 ? duration : (currentTrack?.duration || 0)] *)
Definition effectiveDuration (duration : number) (currentTrack : option Track) : number :=
  if gt duration zero then duration else or_zero (nominalDuration currentTrack).

(** The seek slider's [disabled={effectiveDuration === 0}]. *)
Definition seekDisabled (duration : number) (currentTrack : option Track) : bool :=
  strict_eq (effectiveDuration duration currentTrack) zero.

(** The effective duration in the words of the specification: the live
    duration when positive, else the record's nominal duration when
    present, else 0. *)
Definition spec_effectiveDuration (duration : number) (currentTrack : option Track) : number :=
  if gt duration zero then duration
  else match nominalDuration currentTrack with
       | Some n => n
       | None => zero
       end.

(** Seconds below 60 as two digits. *)
Definition pad2 (z : Z) : string :=
  (if (z <? 10)%Z then "0" else "") ++ toString (Int z).

(** A track whose nominal duration is NaN. *)
Definition nanTrack : Track :=
  mkTrack "t1" "Title" "Artist" "Album" "cover.png" "song.mp3" (Some NaN).

(** *** The rest of the bar *)

(** The glyph next to the volume slider. *)
Inductive Glyph : Type := VolumeX | Volume1 | Volume2.

(** [const VolumeIcon = volume === 0 ? VolumeX : volume < 50 ? Volume1 : Volume2] *)
Definition VolumeIcon (volume : number) : Glyph :=
  if strict_eq volume zero then VolumeX
  else if lt volume (of_Z 50) then Volume1
  else Volume2.

(** The demo track shown when no track is selected. *)
Definition demo : Track :=
  mkTrack "demo" "Select a song to play" "No artist" "No album"
    "https://images.unsplash.com/photo-1618160702438-9b02ab6515c9?auto=format&fit=crop&w=150&h=150"
    "" (Some zero).

(** [const displayTrack = currentTrack || {...}] *)
Definition displayTrack (currentTrack : option Track) : Track :=
  match currentTrack with
  | Some t => t
  | None => demo
  end.

(** [disabled={!currentTrack?.audioUrl}], on the play/pause button and on
    the two ten-second skip buttons. *)
Definition playDisabled (currentTrack : option Track) : bool :=
  negb (truthy_str (option_map audioUrl currentTrack)).

End MusicPlayer.

(** ** The movie detail page (MovieDetail) *)

Module MovieDetail.
Import Js.

(** *** Data *)

(** Modelled from the spec: the [Movie] type of services/movieService,
    which the page imports, is not among the sources.  A quality variant
    is a (label, playable URL) pair; the page reads the two as
    [q.quality] and [q.url]. *)
Record VideoQuality : Type := mkVideoQuality {
  quality : string;
  url : string
}.

(** Modelled from the spec: a content record, with the fields the
    handlers of the page read: the identifier, the title and the list of
    quality variants in the order the server sent them. *)
Record Movie : Type := mkMovie {
  id : string;
  title : string;
  video_qualities : list VideoQuality
}.

Record RefreshLinkResponse : Type := mkRefreshLinkResponse {
  new_url : string;
  message : string;
  response_quality : option string
}.

(** What one render of the component sees: the route parameter and the
    values of the [useState] hooks.  A handler created by a render reads
    these values, also after its [await]s. *)
Record State : Type := mkState {
  movieId : option string;
  movie : option Movie;
  isLoading : bool;
  error : option string;
  selectedQuality : option string;
  showPlayer : bool;
  isMobile : bool;
  isRefreshing : bool;
  playbackError : bool
}.

Definition withMovieId (v : option string) (s : State) : State :=
  mkState v (movie s) (isLoading s) (error s) (selectedQuality s)
          (showPlayer s) (isMobile s) (isRefreshing s) (playbackError s).

Definition setMovie (v : option Movie) (s : State) : State :=
  mkState (movieId s) v (isLoading s) (error s) (selectedQuality s)
          (showPlayer s) (isMobile s) (isRefreshing s) (playbackError s).

Definition setIsLoading (v : bool) (s : State) : State :=
  mkState (movieId s) (movie s) v (error s) (selectedQuality s)
          (showPlayer s) (isMobile s) (isRefreshing s) (playbackError s).

Definition setError (v : option string) (s : State) : State :=
  mkState (movieId s) (movie s) (isLoading s) v (selectedQuality s)
          (showPlayer s) (isMobile s) (isRefreshing s) (playbackError s).

Definition setSelectedQuality (v : option string) (s : State) : State :=
  mkState (movieId s) (movie s) (isLoading s) (error s) v
          (showPlayer s) (isMobile s) (isRefreshing s) (playbackError s).

Definition setShowPlayer (v : bool) (s : State) : State :=
  mkState (movieId s) (movie s) (isLoading s) (error s) (selectedQuality s)
          v (isMobile s) (isRefreshing s) (playbackError s).

Definition setIsMobile (v : bool) (s : State) : State :=
  mkState (movieId s) (movie s) (isLoading s) (error s) (selectedQuality s)
          (showPlayer s) v (isRefreshing s) (playbackError s).

Definition setIsRefreshing (v : bool) (s : State) : State :=
  mkState (movieId s) (movie s) (isLoading s) (error s) (selectedQuality s)
          (showPlayer s) (isMobile s) v (playbackError s).

Definition setPlaybackError (v : bool) (s : State) : State :=
  mkState (movieId s) (movie s) (isLoading s) (error s) (selectedQuality s)
          (showPlayer s) (isMobile s) (isRefreshing s) v.

(** The state of a freshly mounted component. *)
Definition initialState (routeId : option string) : State :=
  mkState routeId None true None None false false false false.

(** *** The world around the component *)

(** Calls to the movie service and to the refresh endpoint. *)
Inductive Request : Type :=
| GetMovieById (movie_id : string) (forceRefresh : bool)
| PostRefreshLink (movie_id : string) (quality_param : string).

(** Calls on the player handle [videoPlayerRef.current.player]. *)
Inductive PlayerCall : Type :=
| Src (src : string) (mime : string)
| Load
| Play.

(** Who awaits [fetchMovieData]: the effect on [movieId], or
    [handleQualitySelect] holding the entry it found. *)
Inductive Caller : Type :=
| FromEffect
| FromQualitySelect (qualityData : VideoQuality).

(** A handler suspended at an [await], with the render [c] it closes
    over. *)
Inductive Task : Type :=
| FetchPending (c : State) (k : Caller)
| SelectPlayPending (c : State)
| RefreshPostPending (c : State) (m : Movie) (q : string)
| RefreshRefetchPending (c : State) (m : Movie) (q : string)
| RefreshPlayPending (c : State).

Record World : Type := mkWorld {
  st : State;                      (* the committed component state *)
  player : bool;                   (* is [videoPlayerRef.current?.player] set *)
  requests : list Request;         (* requests issued so far, oldest first *)
  playerCalls : list PlayerCall;   (* calls on the player handle, oldest first *)
  pending : list Task              (* suspended handlers, oldest first *)
}.

Definition update (f : State -> State) (w : World) : World :=
  mkWorld (f (st w)) (player w) (requests w) (playerCalls w) (pending w).

Definition send (r : Request) (w : World) : World :=
  mkWorld (st w) (player w) (requests w ++ [r]) (playerCalls w) (pending w).

Definition call (p : PlayerCall) (w : World) : World :=
  mkWorld (st w) (player w) (requests w) (playerCalls w ++ [p]) (pending w).

Definition suspend (t : Task) (w : World) : World :=
  mkWorld (st w) (player w) (requests w) (playerCalls w) (pending w ++ [t]).

Definition setPlayer (b : bool) (w : World) : World :=
  mkWorld (st w) b (requests w) (playerCalls w) (pending w).

Definition setPending (l : list Task) (w : World) : World :=
  mkWorld (st w) (player w) (requests w) (playerCalls w) l.

Notation "w |> f" := (f w) (at level 45, left associativity, only parsing).

(** *** The handlers, split at their awaits *)

(** [movie?.video_qualities.find(q => q.quality === label)] *)
Definition findQuality (label : string) (m : option Movie) : option VideoQuality :=
  match m with
  | Some m => find (fun q => quality q =? label) (video_qualities m)
  | None => None
  end.

(** [data.video_qualities[0]?.quality || 'Default'] *)
Definition firstQuality (data : Movie) : string :=
  match video_qualities data with
  | q :: _ => if quality q =? "" then "Default" else quality q
  | [] => "Default"
  end.

Definition mp4 : string := "video/mp4".

(** [handleVideoError] *)
Definition handleVideoError (c : State) (w : World) : World :=
  match movie c with
  | None => w
  | Some _ =>
      if negb (truthy_str (selectedQuality c)) || isRefreshing c then w
      else w |> update (setPlaybackError true)
  end.

(** [handleQualitySelect] after [await fetchMovieData(true)]. *)
Definition handleQualitySelect_resume (c : State) (qualityData : VideoQuality)
    (w : World) : World :=
  if player w then
    w |> call (Src (url qualityData) mp4)
      |> call Load
      |> update (setShowPlayer true)
      |> call Play
      |> suspend (SelectPlayPending c)
  else
    w |> update (setShowPlayer true).

(** What runs when the promise of [fetchMovieData] resolves. *)
Definition fetch_done (c : State) (k : Caller) (w : World) : World :=
  match k with
  | FromEffect => w
  | FromQualitySelect qualityData => handleQualitySelect_resume c qualityData w
  end.

Definition invalidId (c : State) (k : Caller) (w : World) : World :=
  w |> update (setError (Some "Invalid movie ID"))
    |> update (setIsLoading false)
    |> fetch_done c k.

(** [fetchMovieData] up to [await getMovieById(movieId, forceRefresh)]. *)
Definition fetchMovieData (c : State) (forceRefresh : bool) (k : Caller)
    (w : World) : World :=
  match movieId c with
  | None => invalidId c k w
  | Some i =>
      if i =? "" then invalidId c k w
      else w |> send (GetMovieById i forceRefresh)
             |> suspend (FetchPending c k)
  end.

(** [fetchMovieData] once [getMovieById] has returned [data]. *)
Definition fetchMovieData_returned (c : State) (k : Caller) (data : option Movie)
    (w : World) : World :=
  match data with
  | Some d =>
      let w1 := w |> update (setMovie (Some d)) in
      let w2 := if negb (truthy_str (selectedQuality c))
                then w1 |> update (setSelectedQuality (Some (firstQuality d)))
                else w1 in
      w2 |> update (setIsLoading false)      (* before the return *)
         |> update (setIsLoading false)      (* finally *)
         |> fetch_done c k
  | None =>
      w |> update (setError (Some "Movie not found"))
        |> update (setIsLoading false)
        |> fetch_done c k
  end.

(** [fetchMovieData] once [getMovieById] has thrown. *)
Definition fetchMovieData_threw (c : State) (k : Caller) (w : World) : World :=
  w |> update (setError (Some "Failed to load movie details"))
    |> update (setIsLoading false)
    |> fetch_done c k.

(** [handleQualitySelect] *)
Definition handleQualitySelect (c : State) (label : string) (w : World) : World :=
  match findQuality label (movie c) with
  | None => w
  | Some qualityData =>
      w |> update (setSelectedQuality (Some label))
        |> update (setPlaybackError false)
        |> fetchMovieData c true (FromQualitySelect qualityData)
  end.

(** The [catch] and [finally] blocks of [handleRefreshLink]. *)
Definition refresh_catch (w : World) : World :=
  w |> update (setPlaybackError true).

Definition refresh_finally (w : World) : World :=
  w |> update (setIsRefreshing false).

(** [handleRefreshLink] up to [await axios.post(...)]. *)
Definition handleRefreshLink (c : State) (w : World) : World :=
  match movie c, selectedQuality c with
  | Some m, Some q =>
      if (q =? "") || isRefreshing c then w
      else w |> update (setIsRefreshing true)
             |> update (setPlaybackError false)
             |> send (PostRefreshLink (id m) q)
             |> suspend (RefreshPostPending c m q)
  | _, _ => w
  end.

(** ... once the endpoint has answered with a 2xx response. *)
Definition handleRefreshLink_posted (c : State) (m : Movie) (q : string)
    (res : RefreshLinkResponse) (w : World) : World :=
  if new_url res =? "" then w |> refresh_finally
  else w |> send (GetMovieById (id m) true)
         |> suspend (RefreshRefetchPending c m q).

(** ... once [getMovieById(movie.id, true)] has returned [freshMovie]. *)
Definition handleRefreshLink_refetched (c : State) (q : string)
    (freshMovie : option Movie) (w : World) : World :=
  let w1 := w |> update (setMovie freshMovie)
              |> update (setPlaybackError false) in
  match findQuality q freshMovie with
  | Some freshQualityData =>
      if player w1 then
        w1 |> call (Src (url freshQualityData) mp4)
           |> call Load
           |> call Play
           |> suspend (RefreshPlayPending c)
      else w1 |> refresh_finally
  | None => w1 |> refresh_finally
  end.

(** *** Settling an awaited promise *)

Inductive Outcome : Type :=
| MovieReturned (data : option Movie)        (* getMovieById resolves *)
| PostReturned (res : RefreshLinkResponse)   (* axios.post resolves *)
| PlayStarted                                (* player.play() resolves *)
| Rejected.                                  (* the awaited promise rejects *)

Definition settle (t : Task) (o : Outcome) (w : World) : option World :=
  match t, o with
  | FetchPending c k, MovieReturned data => Some (fetchMovieData_returned c k data w)
  | FetchPending c k, Rejected => Some (fetchMovieData_threw c k w)
  | SelectPlayPending c, PlayStarted => Some w
  | SelectPlayPending c, Rejected => Some (handleVideoError c w)
  | RefreshPostPending c m q, PostReturned res => Some (handleRefreshLink_posted c m q res w)
  | RefreshPostPending c m q, Rejected => Some (w |> refresh_catch |> refresh_finally)
  | RefreshRefetchPending c m q, MovieReturned fresh => Some (handleRefreshLink_refetched c q fresh w)
  | RefreshRefetchPending c m q, Rejected => Some (w |> refresh_catch |> refresh_finally)
  | RefreshPlayPending c, PlayStarted => Some (w |> refresh_finally)
  | RefreshPlayPending c, Rejected => Some (w |> refresh_finally)
  | _, _ => None
  end.

(** *** The page as an event loop *)

(** Which of the three returns of the render is on screen. *)
Inductive View : Type := Skeleton | NotFound | Detail.

Definition view (s : State) : View :=
  if isLoading s then Skeleton
  else if truthy_str (error s) then NotFound
  else match movie s with
       | None => NotFound
       | Some _ => Detail
       end.

Definition detailShown (s : State) : bool :=
  match view s with Detail => true | _ => false end.

(** The items of the quality menu:
    [movie.video_qualities.map(quality => ... quality.quality ...)]. *)
Definition menuLabels (s : State) : list string :=
  match movie s with
  | Some m => map quality (video_qualities m)
  | None => []
  end.

Definition sameId (a b : option string) : bool :=
  match a, b with
  | Some x, Some y => x =? y
  | None, None => true
  | _, _ => false
  end.

Inductive Event : Type :=
| RouteChange (newId : option string)   (* the route parameter changes *)
| PickQuality (label : string)          (* a click on a menu item *)
| VideoError                            (* the player calls [onError] *)
| ClickRefresh                          (* a click on "Refresh Link" *)
| OpenChange (open : bool)              (* the dialog's [onOpenChange] *)
| PlayerHandle (live : bool)            (* the player ref is set or unset *)
| Settle (i : nat) (o : Outcome).       (* the i-th suspended handler resumes *)

Definition remove_nth {A : Type} (i : nat) (l : list A) : list A :=
  firstn i l ++ skipn (S i) l.

(** The effect on [movieId]: [fetchMovieData()] from the new render. *)
Definition routeChange (newId : option string) (w : World) : World :=
  let w1 := w |> update (withMovieId newId) in
  w1 |> fetchMovieData (st w1) false FromEffect.

(** One turn of the event loop.  A user event runs the handler of the
    committed render; it is [None] when the control is not on screen
    (or is disabled) in that render.  The player lives inside the dialog,
    so it reports errors only while the dialog is open. *)
Definition step (e : Event) (w : World) : option World :=
  match e with
  | RouteChange newId =>
      if sameId newId (movieId (st w)) then None
      else Some (routeChange newId w)
  | PickQuality label =>
      if detailShown (st w) && existsb (String.eqb label) (menuLabels (st w))
      then Some (handleQualitySelect (st w) label w)
      else None
  | VideoError =>
      if detailShown (st w) && showPlayer (st w)
      then Some (handleVideoError (st w) w)
      else None
  | ClickRefresh =>
      if detailShown (st w) && playbackError (st w) && negb (isRefreshing (st w))
      then Some (handleRefreshLink (st w) w)
      else None
  | OpenChange open =>
      if detailShown (st w) then Some (w |> update (setShowPlayer open)) else None
  | PlayerHandle live => Some (w |> setPlayer live)
  | Settle i o =>
      match nth_error (pending w) i with
      | Some t => settle t o (w |> setPending (remove_nth i (pending w)))
      | None => None
      end
  end.

Fixpoint run (es : list Event) (w : World) : option World :=
  match es with
  | [] => Some w
  | e :: es' =>
      match step e w with
      | Some w' => run es' w'
      | None => None
      end
  end.

(** Mounting the component: both effects run once. *)
Definition mount (routeId : option string) (narrow : bool) : World :=
  let w0 := mkWorld (initialState routeId) false [] [] [] in
  w0 |> fetchMovieData (st w0) false FromEffect
     |> update (setIsMobile narrow).

(** *** One handler run to its end *)

(** The most recently suspended handler resumes with outcome [o]. *)
Definition resume (o : Outcome) (w : World) : option World :=
  step (Settle (pred (List.length (pending w))) o) w.

(** [complete os n w] drives the handler that was started when [n] tasks
    were pending to its end, feeding its successive awaits the outcomes
    [os]; no other event comes in between. *)
Fixpoint complete (os : list Outcome) (n : nat) (w : World) : option World :=
  if (List.length (pending w) <=? n)%nat then Some w
  else match os with
       | [] => None
       | o :: os' =>
           match resume o w with
           | Some w' => complete os' n w'
           | None => None
           end
       end.

Definition isMovieOutcome (o : Outcome) : bool :=
  match o with MovieReturned _ | Rejected => true | _ => false end.

Definition isPostOutcome (o : Outcome) : bool :=
  match o with PostReturned _ | Rejected => true | _ => false end.

Definition isPlayOutcome (o : Outcome) : bool :=
  match o with PlayStarted | Rejected => true | _ => false end.

(** *** Notions used in the statements *)

(** The guard of [handleVideoError] lets the callback through. *)
Definition errorCallbackArmed (c : State) : bool :=
  match movie c with
  | Some _ => truthy_str (selectedQuality c) && negb (isRefreshing c)
  | None => false
  end.

(** The guard of [handleRefreshLink] lets the handler through. *)
Definition refreshArmed (c : State) : bool :=
  match movie c with
  | Some _ => truthy_str (selectedQuality c) && negb (isRefreshing c)
  | None => false
  end.

(** Does the [try] block of [handleRefreshLink] throw, given the
    outcomes of the POST and of the re-fetch. *)
Definition refreshThrows (post refetch : Outcome) : bool :=
  match post with
  | Rejected => true
  | PostReturned res =>
      if new_url res =? "" then false
      else match refetch with Rejected => true | _ => false end
  | _ => false
  end.

(** The refreshing flag and the playback-error flag are not both set. *)
Definition exclusive (s : State) : bool :=
  negb (isRefreshing s && playbackError s).

(** The event is the rejection of the [play()] of a quality pick whose
    render saw no refresh, while a refresh is in flight now. *)
Definition staleReject (e : Event) (w : World) : bool :=
  match e with
  | Settle i Rejected =>
      match nth_error (pending w) i with
      | Some (SelectPlayPending c) => negb (isRefreshing c) && isRefreshing (st w)
      | _ => false
      end
  | _ => false
  end.

(** [run], refusing the stale rejections. *)
Fixpoint runFresh (es : list Event) (w : World) : option World :=
  match es with
  | [] => Some w
  | e :: es' =>
      if staleReject e w then None
      else match step e w with
           | Some w' => runFresh es' w'
           | None => None
           end
  end.

(** The two flags of a world, refreshing first. *)
Definition flags (w : World) : bool * bool :=
  (isRefreshing (st w), playbackError (st w)).

(** The default quality in the words of the specification: the label
    of the first entry of the list. *)
Definition spec_defaultQuality (data : Movie) : option string :=
  option_map quality (hd_error (video_qualities data)).

(** The four transient fields of the page. *)
Definition transient (s : State) : option string * bool * bool * bool :=
  (selectedQuality s, showPlayer s, isRefreshing s, playbackError s).

(** *** Sample records and worlds *)

Definition film : Movie :=
  mkMovie "m1" "Film"
    [mkVideoQuality "720p" "a"; mkVideoQuality "1080p" "b"].

(** The same film after its links were renewed. *)
Definition renewed : Movie :=
  mkMovie "m1" "Film"
    [mkVideoQuality "720p" "a2"; mkVideoQuality "1080p" "x"].

(** The same film, the 1080p entry gone. *)
Definition only720 : Movie :=
  mkMovie "m1" "Film" [mkVideoQuality "720p" "a2"].

(** A record whose first entry has an empty label. *)
Definition unlabelled : Movie :=
  mkMovie "m3" "Rough cut" [mkVideoQuality "" "r"; mkVideoQuality "720p" "s"].

Definition otherFilm : Movie :=
  mkMovie "m2" "Other" [mkVideoQuality "480p" "c"].

Definition link (u : string) : RefreshLinkResponse :=
  mkRefreshLinkResponse u "refreshed" None.

(** The page of [film] with "1080p" selected and the player dialog
    open on a live player. *)
Definition watching : World :=
  mkWorld
    (mkState (Some "m1") (Some film) false None (Some "1080p") true false false false)
    true
    [GetMovieById "m1" false; GetMovieById "m1" true]
    [] [].

(** The same page after the player reported an error and the dialog
    was closed: the "Refresh Link" button is on screen. *)
Definition failedPlayback : World :=
  mkWorld
    (mkState (Some "m1") (Some film) false None (Some "1080p") false false false true)
    false
    [GetMovieById "m1" false; GetMovieById "m1" true]
    [] [].

(** The same, the dialog still open on the live player. *)
Definition failedPlaybackOpen : World :=
  mkWorld
    (mkState (Some "m1") (Some film) false None (Some "1080p") true false false true)
    true
    [GetMovieById "m1" false; GetMovieById "m1" true]
    [] [].

(** [failedPlaybackOpen] after a click on "Refresh Link": the POST is
    awaited. *)
Definition refreshInFlight : World :=
  handleRefreshLink (st failedPlaybackOpen) failedPlaybackOpen.

(** From the mount to [watching], [failedPlaybackOpen] and
    [failedPlayback]. *)
Definition toWatching : list Event :=
  [ Settle 0 (MovieReturned (Some film));   (* the record arrives *)
    PickQuality "1080p";                    (* the user picks 1080p *)
    Settle 0 (MovieReturned (Some film));   (* no player yet: the dialog opens *)
    PlayerHandle true ].                    (* the player mounts in the dialog *)

Definition toFailedPlayback : list Event :=
  toWatching ++
  [ VideoError;                             (* the player reports an error *)
    OpenChange false;                       (* the user closes the dialog *)
    PlayerHandle false ].                   (* the player unmounts *)

(** A refresh started after a slow quality pick; every click happens
    while the dialog is closed, the player is live only while it is
    open. *)
Definition overlappingPick : list Event :=
  [ Settle 0 (MovieReturned (Some film));   (* the record arrives *)
    PickQuality "1080p";                    (* pick X; its fetch is slow *)
    PickQuality "1080p";                    (* pick Y *)
    Settle 1 (MovieReturned (Some film));   (* Y's fetch: the dialog opens *)
    PlayerHandle true;
    VideoError;                             (* playbackError := true *)
    OpenChange false;                       (* the user closes the dialog *)
    PlayerHandle false;
    ClickRefresh;                           (* the refresh starts *)
    PickQuality "1080p";                    (* pick Z, during the refresh *)
    Settle 2 (MovieReturned (Some film));   (* Z's fetch: the dialog opens *)
    PlayerHandle true ].

Definition staleErrorTrace : list Event :=
  overlappingPick ++
  [ Settle 0 (MovieReturned (Some film));   (* X's fetch: src, load, play *)
    Settle 1 Rejected ].                    (* X's play() rejects *)

(** *** The rest of the page *)

(** [getSelectedQualityUrl]: the [src] prop of the player. *)
Definition getSelectedQualityUrl (s : State) : string :=
  match movie s, selectedQuality s with
  | Some m, Some q =>
      if q =? "" then ""
      else match find (fun v => quality v =? q) (video_qualities m) with
           | Some v => url v
           | None => ""          (* after a [console.error] *)
           end
  | _, _ => ""
  end.

(** [handleClosePlayer] *)
Definition handleClosePlayer (w : World) : World :=
  w |> update (setShowPlayer false).

(** The check mark of a menu item:
    [selectedQuality === quality.quality]. *)
Definition checked (s : State) (label : string) : bool :=
  match selectedQuality s with
  | Some q => q =? label
  | None => false
  end.

(** The suspended steps of [handleRefreshLink]. *)
Definition isRefreshTask (t : Task) : bool :=
  match t with
  | RefreshPostPending _ _ _ | RefreshRefetchPending _ _ _ | RefreshPlayPending _ => true
  | _ => false
  end.

Definition refreshTasks (l : list Task) : nat :=
  List.length (filter isRefreshTask l).

(** The calls on the player handle come as [src], [load], [play], with
    the MIME type "video/mp4". *)
Fixpoint loadsThenPlays (l : list PlayerCall) : bool :=
  match l with
  | [] => true
  | Src _ m :: Load :: Play :: rest => (m =? mp4) && loadsThenPlays rest
  | _ => false
  end.

(** A request the guards let through: a fetch by route parameter has a
    non-empty identifier unless it is forced, a refresh has a non-empty
    quality. *)
Definition guardedRequest (r : Request) : bool :=
  match r with
  | GetMovieById i forced => forced || negb (i =? "")
  | PostRefreshLink _ q => negb (q =? "")
  end.

(** The refreshing flag is set exactly while one step of
    [handleRefreshLink] is suspended. *)
Definition oneRefresh (w : World) : Prop :=
  refreshTasks (pending w) = if isRefreshing (st w) then 1%nat else 0%nat.

(** The outcome of a fetch that brought no record. *)
Definition isFetchFailure (o : Outcome) : bool :=
  match o with
  | MovieReturned None | Rejected => true
  | _ => false
  end.

(** *** The steps of a refresh *)

(** Which outcomes can settle which suspended step. *)
Definition outcomeFits (t : Task) (o : Outcome) : bool :=
  match t with
  | FetchPending _ _ | RefreshRefetchPending _ _ _ => isMovieOutcome o
  | RefreshPostPending _ _ _ => isPostOutcome o
  | SelectPlayPending _ | RefreshPlayPending _ => isPlayOutcome o
  end.

(** The awaits a suspended step of [handleRefreshLink] has ahead of it,
    its own included. *)
Definition refreshStage (t : Task) : nat :=
  match t with
  | RefreshPostPending _ _ _ => 3
  | RefreshRefetchPending _ _ _ => 2
  | RefreshPlayPending _ => 1
  | _ => 0
  end.

(** The awaited call throws inside the [try] block: the POST or the
    re-fetch is rejected (a rejected [play()] goes to [console.error]). *)
Definition refreshThrew (t : Task) (o : Outcome) : bool :=
  match t, o with
  | RefreshPostPending _ _ _, Rejected => true
  | RefreshRefetchPending _ _ _, Rejected => true
  | _, _ => false
  end.

(** [refreshInFlight] once the endpoint has answered with a new link:
    the re-fetch is awaited. *)
Definition refetchInFlight : World :=
  handleRefreshLink_posted (st failedPlaybackOpen) film "1080p" (link "x")
    (setPending [] refreshInFlight).

(** A refresh for "1080p" during which the user picks "720p". *)
Definition midRefreshPick : list Event :=
  toFailedPlayback ++
  [ ClickRefresh;                              (* the refresh starts, for 1080p *)
    PickQuality "720p";                        (* the user picks 720p *)
    Settle 1 (MovieReturned (Some renewed));   (* the pick's fetch: the dialog opens *)
    PlayerHandle true;                         (* the player mounts *)
    Settle 0 (PostReturned (link "x"));        (* the endpoint answers *)
    Settle 0 (MovieReturned (Some renewed));   (* the re-fetch: src, load, play *)
    Settle 0 PlayStarted ].                    (* the refresh ends *)

(** The route changes before the first fetch returns; the user picks a
    quality of the first record, then the second fetch returns. *)
Definition lateFetch : list Event :=
  [ RouteChange (Some "m2");                   (* a second fetch, no selection yet *)
    Settle 0 (MovieReturned (Some film));      (* the first fetch: 720p by default *)
    PickQuality "1080p";                       (* the user picks 1080p *)
    Settle 0 (MovieReturned (Some otherFilm)) ].  (* the second fetch returns *)

End MovieDetail.

(** * Properties of the playback control bar *)

Section ControlBar.
Import Js MusicPlayer.

Lemma Qc_compare_eq (p q : Qc) : (p ?= q)%Qc = Eq <-> p = q.
Proof. symmetry. apply Qceq_alt. Qed.

Lemma truthy_false_finite (q : Qc) : truthy (Finite q) = false -> Finite q = zero.
Proof.
  unfold truthy. destruct (q ?= Q2Qc 0)%Qc eqn:E; try discriminate.
  intros _. apply Qc_compare_eq in E. now subst q.
Qed.

Lemma strict_eq_zero (x : number) : strict_eq x zero = true <-> x = zero.
Proof.
  unfold zero, of_Z. destruct x as [| | |p]; simpl; split; try discriminate.
  - destruct (p ?= _)%Qc eqn:E; try discriminate.
    intros _. apply Qc_compare_eq in E. now subst p.
  - intros H. injection H as ->.
    now rewrite (proj2 (Qc_compare_eq _ _) eq_refl).
Qed.

Lemma or_zero_cases (v : option number) :
  or_zero v = match v with
              | Some n => if isNaN n then zero else n
              | None => zero
              end.
Proof.
  destruct v as [n|]; [|reflexivity].
  destruct n as [| | |q]; try reflexivity.
  unfold or_zero. destruct (truthy (Finite q)) eqn:E; [reflexivity|].
  symmetry. now apply truthy_false_finite.
Qed.

(** The four sample values of the specification. *)
Lemma formatTime_samples :
  formatTime zero = "0:00" /\ formatTime NaN = "0:00"
  /\ formatTime (of_Z 65) = "1:05" /\ formatTime (of_Z 599) = "9:59".
Proof. repeat split; vm_compute; reflexivity. Qed.

(** C9: the claim says that every non-finite input renders as "0:00".
    The guard of [formatTime] tests falsiness and [isNaN] only: at
    [Infinity], which is the live duration of an unbounded stream and is
    greater than 0, the function renders "Infinity:NaN". *)
Theorem formatTime_Infinity :
  effectiveDuration PosInfinity None = PosInfinity
  /\ formatTime PosInfinity = "Infinity:NaN"
  /\ formatTime PosInfinity <> "0:00".
Proof.
  split; [reflexivity|]. split; [vm_compute; reflexivity|].
  vm_compute. discriminate.
Qed.

(** On a positive finite input the function does render M:SS: the
    minutes are [floor(seconds) / 60] without padding, the seconds are
    [floor(seconds) mod 60] on two digits. *)

Lemma Qfloor_div_Z (q : Q) (k : positive) :
  Qfloor (q / inject_Z (Zpos k)) = (Qfloor q / Zpos k)%Z.
Proof.
  destruct q as [n d]. unfold Qfloor, Qdiv, Qmult, Qinv. simpl.
  rewrite Z.mul_1_r, Pos2Z.inj_mul.
  now rewrite Zdiv.Zdiv_Zdiv by lia.
Qed.

Lemma Qfloor_minus_Z (q : Q) (z : Z) :
  Qfloor (q - inject_Z z) = (Qfloor q - z)%Z.
Proof.
  destruct q as [n d]. unfold Qfloor, Qminus, Qplus, Qopp. simpl.
  rewrite Pos.mul_1_r, Z.mul_1_r.
  replace (n + - z * Z.pos d)%Z with (n + (- z) * Z.pos d)%Z by lia.
  rewrite Z.div_add by lia. lia.
Qed.

Lemma div_sixty (q : Qc) : ((q / sixty)%Qc : Q) == q / inject_Z 60.
Proof.
  unfold Qcdiv, Qcmult, Qcinv, sixty, Q2Qc. cbn [this].
  rewrite !Qred_correct. reflexivity.
Qed.

Lemma rem_sixty (q : Qc) (k : Z) :
  ((q - sixty * Q2Qc (inject_Z k))%Qc : Q) == q - inject_Z (60 * k).
Proof.
  unfold Qcminus, Qcplus, Qcopp, Qcmult, sixty, Q2Qc. cbn [this].
  rewrite !Qred_correct, inject_Z_mult. reflexivity.
Qed.

Lemma floor_mins (q : Qc) : Qfloor (q / sixty)%Qc = (Qfloor q / 60)%Z.
Proof. rewrite (Qfloor_comp _ _ (div_sixty q)). apply Qfloor_div_Z. Qed.

Lemma Qtrunc_nonneg (x : Q) : (0 <= x)%Q -> Qtrunc x = Qfloor x.
Proof. intros H. unfold Qtrunc. now rewrite (proj2 (Qle_bool_iff 0 x) H). Qed.

Lemma floor_secs (q : Qc) :
  (0 <= q)%Qc ->
  Qfloor (q - sixty * Q2Qc (inject_Z (Qtrunc (q / sixty)%Qc)))%Qc
  = (Qfloor q mod 60)%Z.
Proof.
  intros H.
  rewrite (Qfloor_comp _ _ (rem_sixty q _)), Qfloor_minus_Z, Qtrunc_nonneg.
  - rewrite floor_mins, Z.mod_eq by lia. reflexivity.
  - rewrite div_sixty. apply Qle_shift_div_l; [reflexivity|].
    now rewrite Qmult_0_l.
Qed.

Lemma formatTime_positive (q : Qc) :
  (0 < q)%Qc ->
  formatTime (Finite q) =
    toString (Int (Qfloor q / 60)) ++ ":" ++ pad2 (Qfloor q mod 60).
Proof.
  intros H. unfold formatTime.
  assert (T : truthy (Finite q) = true).
  { unfold truthy.
    assert (E : (q ?= Q2Qc 0)%Qc = Gt) by (apply Qcgt_alt; exact H).
    now rewrite E. }
  rewrite T. cbn [negb orb isNaN]. cbv iota.
  unfold div, rem, Math_floor.
  rewrite floor_mins, floor_secs by (apply Qlt_le_weak; exact H).
  reflexivity.
Qed.

Lemma pad2_two_digits (z : Z) :
  (0 <= z < 60)%Z -> String.length (pad2 z) = 2%nat.
Proof.
  intros H.
  assert (E : forallb (fun n => Nat.eqb (String.length (pad2 (Z.of_nat n))) 2)
                      (seq 0 60) = true) by (vm_compute; reflexivity).
  rewrite forallb_forall in E. specialize (E (Z.to_nat z)).
  rewrite Z2Nat.id in E by lia.
  apply Nat.eqb_eq, E, in_seq. lia.
Qed.

(** A negative input is not rendered as M:SS either. *)
Lemma formatTime_negative : formatTime (of_Z (-5)) = "-1:0-5".
Proof. vm_compute. reflexivity. Qed.

(** C8, as stated, fails when the record's nominal duration is NaN: the
    claim takes the nominal duration whenever it is present, the code's
    [|| 0] replaces a NaN by 0 (and the seek control is then disabled). *)
Lemma effectiveDuration_nominal_NaN :
  effectiveDuration zero (Some nanTrack) = zero
  /\ spec_effectiveDuration zero (Some nanTrack) = NaN
  /\ effectiveDuration zero (Some nanTrack) <> spec_effectiveDuration zero (Some nanTrack)
  /\ seekDisabled zero (Some nanTrack) = true.
Proof.
  repeat split; try (vm_compute; reflexivity).
  vm_compute. discriminate.
Qed.

(** C8, amended: the effective duration is the live duration when that
    is greater than 0, else the record's nominal duration when it is
    present and not NaN, else 0; the seek control is disabled exactly
    when the effective duration is 0. *)
Theorem effectiveDuration_cases (duration : number) (currentTrack : option Track) :
  effectiveDuration duration currentTrack =
    (if gt duration zero then duration
     else match nominalDuration currentTrack with
          | Some n => if isNaN n then zero else n
          | None => zero
          end)
  /\ (seekDisabled duration currentTrack = true
      <-> effectiveDuration duration currentTrack = zero).
Proof.
  split.
  - unfold effectiveDuration. now rewrite or_zero_cases.
  - apply strict_eq_zero.
Qed.

(** Away from a NaN nominal duration the code and the wording agree. *)
Lemma effectiveDuration_refines_spec (duration : number) (currentTrack : option Track) :
  nominalDuration currentTrack <> Some NaN ->
  effectiveDuration duration currentTrack = spec_effectiveDuration duration currentTrack.
Proof.
  intros H. unfold effectiveDuration, spec_effectiveDuration.
  rewrite or_zero_cases.
  destruct (gt duration zero); [reflexivity|].
  destruct (nominalDuration currentTrack) as [[| | |q]|]; try reflexivity.
  now elim H.
Qed.

End ControlBar.

(** * Properties of the movie detail page *)

Section DetailPage.
Import Js MovieDetail.

(** ** Driving one handler to its end *)

Lemma remove_last {A : Type} (l : list A) (t : A) :
  remove_nth (List.length l) (l ++ [t])%list = l.
Proof.
  unfold remove_nth.
  rewrite skipn_all2 by (rewrite length_app; simpl; lia).
  rewrite firstn_app, Nat.sub_diag, firstn_all. simpl.
  now rewrite !app_nil_r.
Qed.

Lemma resume_last (o : Outcome) (w : World) (l : list Task) (t : Task) :
  pending w = (l ++ [t])%list ->
  resume o w = settle t o (setPending l w).
Proof.
  intros H. unfold resume, step. rewrite H, length_app. simpl.
  replace (pred (List.length l + 1)) with (List.length l) by lia.
  rewrite nth_error_app2, Nat.sub_diag by lia. simpl.
  now rewrite remove_last.
Qed.

Local Arguments complete : simpl never.
Local Arguments resume : simpl never.

Lemma complete_done (os : list Outcome) (n : nat) (w : World) :
  (List.length (pending w) <= n)%nat -> complete os n w = Some w.
Proof.
  intros H. destruct os; unfold complete;
    now rewrite (proj2 (Nat.leb_le _ _) H).
Qed.

Lemma complete_more (o : Outcome) (os : list Outcome) (n : nat) (w : World)
    (l : list Task) (t : Task) :
  pending w = (l ++ [t])%list -> (n <= List.length l)%nat ->
  complete (o :: os) n w =
    match settle t o (setPending l w) with
    | Some w' => complete os n w'
    | None => None
    end.
Proof.
  intros H Hn. unfold complete; fold complete.
  replace (List.length (pending w) <=? n)%nat with false.
  - now rewrite (resume_last o w l t H).
  - symmetry. apply Nat.leb_gt. rewrite H, length_app. simpl. lia.
Qed.

(** Project the updated records, without unfolding the tests on
    strings. *)
Ltac fields :=
  cbn [update send call suspend setPending setPlayer
       st player requests playerCalls pending
       movieId movie isLoading error selectedQuality showPlayer isMobile
       isRefreshing playbackError
       withMovieId setMovie setIsLoading setError setSelectedQuality
       setShowPlayer setIsMobile setIsRefreshing setPlaybackError] in *.

(** The handler has no await left: read the final world off. *)
Ltac handler_ends :=
  simpl; rewrite complete_done by (simpl; lia);
  eexists; split; [reflexivity|]; simpl; rewrite <- ?app_assoc; simpl;
  repeat split; reflexivity.

Lemma findQuality_absent (label : string) (s : State) :
  ~ In label (menuLabels s) -> findQuality label (movie s) = None.
Proof.
  unfold menuLabels, findQuality. destruct (movie s) as [m|]; [|reflexivity].
  induction (video_qualities m) as [|q l IH]; simpl; [reflexivity|].
  intros H. destruct (quality q =? label) eqn:E.
  - apply String.eqb_eq in E. elim H. now left.
  - apply IH. intros Hin. apply H. now right.
Qed.

(** ** Picking a quality *)

(** C6: selecting a label that is absent from the current record's
    quality list changes nothing: the state, the requests issued, the
    player calls and the suspended handlers are all as before. *)
Theorem handleQualitySelect_absent_noop (c : State) (label : string) (w : World) :
  ~ In label (menuLabels c) ->
  handleQualitySelect c label w = w.
Proof.
  intros H. unfold handleQualitySelect.
  now rewrite (findQuality_absent label c H).
Qed.

Lemma handleQualitySelect_absent_noop_witness :
  ~ In "4K" (menuLabels (st watching))
  /\ handleQualitySelect (st watching) "4K" watching = watching.
Proof.
  assert (H : ~ In "4K" (menuLabels (st watching))).
  { simpl. intros [E|[E|[]]]; discriminate E. }
  split; [exact H|].
  exact (handleQualitySelect_absent_noop (st watching) "4K" watching H).
Defined.

(** What a quality pick does when nothing else happens in between: the
    label is selected, one forced fetch is issued, the live player is
    given the URL of the entry found in the record of the render that
    handled the click, the dialog is opened, and the error flag ends
    cleared unless [play()] rejects outside a refresh. *)
Lemma handleQualitySelect_run (w : World) (label i : string) (qd : VideoQuality)
    (data : Movie) (play : Outcome) :
  findQuality label (movie (st w)) = Some qd ->
  movieId (st w) = Some i -> i <> "" ->
  truthy_str (selectedQuality (st w)) = true ->
  player w = true ->
  isPlayOutcome play = true ->
  exists w',
    complete [MovieReturned (Some data); play] (List.length (pending w))
             (handleQualitySelect (st w) label w) = Some w'
    /\ selectedQuality (st w') = Some label
    /\ movie (st w') = Some data
    /\ showPlayer (st w') = true
    /\ requests w' = (requests w ++ [GetMovieById i true])%list
    /\ playerCalls w' = (playerCalls w ++ [Src (url qd) mp4; Load; Play])%list
    /\ playbackError (st w') =
         match play with
         | Rejected => negb (isRefreshing (st w))
         | _ => false
         end
    /\ pending w' = pending w.
Proof.
  intros Hfind Hid Hne Hsel Hpl Hplay.
  unfold handleQualitySelect. rewrite Hfind.
  unfold fetchMovieData. rewrite Hid, (proj2 (String.eqb_neq _ _) Hne).
  destruct w as [s pl rq pc pd]. simpl in Hfind, Hid, Hsel, Hpl |- *. subst pl.
  erewrite complete_more; [|reflexivity|simpl; lia].
  simpl settle. unfold fetchMovieData_returned. rewrite Hsel. simpl.
  unfold handleQualitySelect_resume. simpl.
  erewrite complete_more; [|reflexivity|simpl; lia].
  destruct play; try discriminate; simpl settle.
  - handler_ends.
  - unfold handleVideoError. simpl.
    destruct (movie s); [|discriminate Hfind].
    rewrite Hsel. simpl. destruct (isRefreshing s); handler_ends.
Qed.

Lemma watching_reachable : run toWatching (mount (Some "m1") false) = Some watching.
Proof. vm_compute. reflexivity. Qed.

(** C1: the claim has the player load the URL of the newly fetched
    record.  [handleQualitySelect] passes [qualityData.url] to the
    player, and [qualityData] was looked up before the fetch: when the
    forced fetch returns [renewed], whose 1080p link is "x", the player
    is still given the old link "b". *)
Theorem quality_pick_loads_stale_url :
  exists w',
    complete [MovieReturned (Some renewed); PlayStarted] 0
             (handleQualitySelect (st watching) "1080p" watching) = Some w'
    /\ movie (st w') = Some renewed
    /\ findQuality "1080p" (movie (st w')) = Some (mkVideoQuality "1080p" "x")
    /\ playerCalls w' = [Src "b" mp4; Load; Play]
    /\ "b" <> "x".
Proof.
  eexists. split; [vm_compute; reflexivity|].
  repeat split; try reflexivity. discriminate.
Qed.

(** The same through the event loop, with every click made while the
    dialog is closed: of two overlapping picks the second opens the
    dialog, the player mounts, and the first then loads the old link. *)
Lemma overlapping_pick_loads_stale_url :
  exists w',
    run [ Settle 0 (MovieReturned (Some film));
          PickQuality "1080p";
          PickQuality "1080p";
          Settle 1 (MovieReturned (Some film));
          PlayerHandle true;
          Settle 0 (MovieReturned (Some renewed));
          Settle 0 PlayStarted ]
        (mount (Some "m1") false) = Some w'
    /\ movie (st w') = Some renewed
    /\ playerCalls w' = [Src "b" mp4; Load; Play].
Proof. eexists. split; [vm_compute; reflexivity|]. split; reflexivity. Qed.

(** ** The manual refresh *)

Lemma refreshArmed_inv (c : State) :
  refreshArmed c = true ->
  exists m q, movie c = Some m /\ selectedQuality c = Some q
              /\ (q =? "") = false /\ isRefreshing c = false.
Proof.
  unfold refreshArmed, truthy_str.
  destruct (movie c) as [m|]; [|discriminate].
  destruct (selectedQuality c) as [q|]; [|discriminate].
  intros H. apply andb_true_iff in H as [H1 H2].
  exists m, q. repeat split.
  - now apply negb_true_iff.
  - now apply negb_true_iff.
Qed.

Lemma handleRefreshLink_armed (w : World) (m : Movie) (q : string) :
  movie (st w) = Some m -> selectedQuality (st w) = Some q ->
  (q =? "") = false -> isRefreshing (st w) = false ->
  handleRefreshLink (st w) w =
    suspend (RefreshPostPending (st w) m q)
      (send (PostRefreshLink (id m) q)
         (update (setPlaybackError false) (update (setIsRefreshing true) w))).
Proof.
  intros Hm Hq Hne Hr. unfold handleRefreshLink.
  now rewrite Hm, Hq, Hne, Hr.
Qed.

(** C3: the claim has the live player load the fresh record's URL for
    the selected quality.  [handleRefreshLink] looks the quality up under
    the [selectedQuality] of the render that handled the click, also after
    its two awaits.  In [midRefreshPick] the refresh is started for
    "1080p" with the dialog closed, the user then picks "720p", which
    opens the dialog, and the re-fetch returns a record that has "720p"
    with a changed URL ("a2"): the live player is given "x", the fresh URL
    of "1080p", while "720p" is the selected quality. *)
Theorem refresh_loads_other_quality :
  exists w,
    run midRefreshPick (mount (Some "m1") false) = Some w
    /\ selectedQuality (st w) = Some "720p"
    /\ movie (st w) = Some renewed
    /\ findQuality "720p" (Some film) = Some (mkVideoQuality "720p" "a")
    /\ findQuality "720p" (movie (st w)) = Some (mkVideoQuality "720p" "a2")
    /\ playerCalls w = [Src "x" mp4; Load; Play]
    /\ playbackError (st w) = false
    /\ "x" <> "a2".
Proof.
  eexists. split; [vm_compute; reflexivity|].
  repeat split; try reflexivity. discriminate.
Qed.

Lemma refetchInFlight_reachable :
  run [ClickRefresh; Settle 0 (PostReturned (link "x"))] failedPlaybackOpen
  = Some refetchInFlight.
Proof. vm_compute. reflexivity. Qed.

(** Where the quality selected when the record arrives is still the one
    the refresh was started for, the refresh does load the fresh URL: if
    the endpoint succeeds with a new_url the forced re-fetch is issued,
    and if it returns a record containing that quality while a player
    handle is live, the source loaded into the player is the fresh
    record's URL for it and playbackError is reset to false.  This holds
    for a refresh that runs with nothing in between, and step by step
    whatever else happens in between. *)
Theorem refresh_loads_fresh_url (w : World) (m fresh : Movie) (q : string)
    (res : RefreshLinkResponse) (fq : VideoQuality) (play : Outcome) :
  (movie (st w) = Some m ->
   selectedQuality (st w) = Some q -> q <> "" ->
   isRefreshing (st w) = false ->
   player w = true ->
   new_url res <> "" ->
   findQuality q (Some fresh) = Some fq ->
   isPlayOutcome play = true ->
   exists w',
     complete [PostReturned res; MovieReturned (Some fresh); play]
              (List.length (pending w)) (handleRefreshLink (st w) w) = Some w'
     /\ playerCalls w' = (playerCalls w ++ [Src (url fq) mp4; Load; Play])%list
     /\ playbackError (st w') = false
     /\ isRefreshing (st w') = false
     /\ movie (st w') = Some fresh
     /\ requests w' =
          (requests w ++ [PostRefreshLink (id m) q; GetMovieById (id m) true])%list)
  /\ (forall i c,
        nth_error (pending w) i = Some (RefreshPostPending c m q) ->
        new_url res <> "" ->
        exists w',
          step (Settle i (PostReturned res)) w = Some w'
          /\ pending w'
             = (remove_nth i (pending w) ++ [RefreshRefetchPending c m q])%list
          /\ requests w' = (requests w ++ [GetMovieById (id m) true])%list
          /\ st w' = st w)
  /\ (forall i c,
        nth_error (pending w) i = Some (RefreshRefetchPending c m q) ->
        selectedQuality (st w) = Some q ->
        findQuality q (Some fresh) = Some fq ->
        player w = true ->
        exists w',
          step (Settle i (MovieReturned (Some fresh))) w = Some w'
          /\ playerCalls w' = (playerCalls w ++ [Src (url fq) mp4; Load; Play])%list
          /\ playbackError (st w') = false
          /\ movie (st w') = Some fresh
          /\ selectedQuality (st w') = Some q).
Proof.
  split; [|split].
  - intros Hm Hq Hne Hr Hpl Hurl Hfind Hplay.
    apply String.eqb_neq in Hne. apply String.eqb_neq in Hurl.
    rewrite (handleRefreshLink_armed w m q Hm Hq Hne Hr).
    destruct w as [s pl rq pc pd]. simpl in Hpl. subst pl.
    erewrite complete_more; [|reflexivity|simpl; lia].
    simpl settle. unfold handleRefreshLink_posted. rewrite Hurl.
    erewrite complete_more; [|reflexivity|simpl; lia].
    simpl settle. unfold handleRefreshLink_refetched. rewrite Hfind. simpl.
    erewrite complete_more; [|reflexivity|simpl; lia].
    destruct play; try discriminate; simpl settle; handler_ends.
  - intros i c Hn Hurl. apply String.eqb_neq in Hurl.
    unfold step. rewrite Hn. cbn [settle].
    unfold handleRefreshLink_posted. rewrite Hurl.
    eexists. split; [reflexivity|]. fields. repeat split.
  - intros i c Hn Hq Hfind Hpl.
    unfold step. rewrite Hn. cbn [settle].
    unfold handleRefreshLink_refetched. rewrite Hfind. fields. rewrite Hpl.
    eexists. split; [reflexivity|]. fields. rewrite <- !app_assoc.
    repeat split. exact Hq.
Qed.

Lemma refresh_loads_fresh_url_witness :
  (exists w',
     complete [PostReturned (link "x"); MovieReturned (Some renewed); PlayStarted]
              (List.length (pending failedPlaybackOpen))
              (handleRefreshLink (st failedPlaybackOpen) failedPlaybackOpen) = Some w'
     /\ playerCalls w' = (playerCalls failedPlaybackOpen ++ [Src "x" mp4; Load; Play])%list
     /\ playbackError (st w') = false
     /\ isRefreshing (st w') = false
     /\ movie (st w') = Some renewed
     /\ requests w' =
          (requests failedPlaybackOpen
             ++ [PostRefreshLink "m1" "1080p"; GetMovieById "m1" true])%list)
  /\ (exists w',
        step (Settle 0 (PostReturned (link "x"))) refreshInFlight = Some w'
        /\ pending w'
           = (remove_nth 0 (pending refreshInFlight)
                ++ [RefreshRefetchPending (st failedPlaybackOpen) film "1080p"])%list
        /\ requests w' = (requests refreshInFlight ++ [GetMovieById "m1" true])%list
        /\ st w' = st refreshInFlight)
  /\ (exists w',
        step (Settle 0 (MovieReturned (Some renewed))) refetchInFlight = Some w'
        /\ playerCalls w' = (playerCalls refetchInFlight ++ [Src "x" mp4; Load; Play])%list
        /\ playbackError (st w') = false
        /\ movie (st w') = Some renewed
        /\ selectedQuality (st w') = Some "1080p").
Proof.
  split; [|split].
  - apply (proj1 (refresh_loads_fresh_url failedPlaybackOpen film renewed "1080p"
                    (link "x") (mkVideoQuality "1080p" "x") PlayStarted));
      try reflexivity; simpl; discriminate.
  - apply (proj1 (proj2 (refresh_loads_fresh_url refreshInFlight film renewed "1080p"
                           (link "x") (mkVideoQuality "1080p" "x") PlayStarted))
             0%nat (st failedPlaybackOpen)); [reflexivity|].
    simpl. discriminate.
  - apply (proj2 (proj2 (refresh_loads_fresh_url refetchInFlight film renewed "1080p"
                           (link "x") (mkVideoQuality "1080p" "x") PlayStarted))
             0%nat (st failedPlaybackOpen)); reflexivity.
Defined.

(** C2, as stated, fails when the re-fetched record does not have the
    selected quality: the handler loads nothing and ends with
    playbackError false.  The same holds when the re-fetch returns no
    record and when the response carries no new_url. *)
Lemma refresh_missing_quality_no_error :
  findQuality "1080p" (Some only720) = None
  /\ (exists w',
        complete [PostReturned (link "x"); MovieReturned (Some only720)] 0
                 (handleRefreshLink (st failedPlayback) failedPlayback) = Some w'
        /\ playbackError (st w') = false /\ playerCalls w' = [])
  /\ (exists w',
        complete [PostReturned (link "x"); MovieReturned None] 0
                 (handleRefreshLink (st failedPlayback) failedPlayback) = Some w'
        /\ playbackError (st w') = false)
  /\ (exists w',
        complete [PostReturned (link "")] 0
                 (handleRefreshLink (st failedPlayback) failedPlayback) = Some w'
        /\ playbackError (st w') = false).
Proof.
  split; [reflexivity|].
  repeat split; eexists; (split; [vm_compute; reflexivity|]);
    repeat split; reflexivity.
Qed.

Lemma failedPlayback_reachable :
  run toFailedPlayback (mount (Some "m1") false) = Some failedPlayback
  /\ step ClickRefresh failedPlayback
     = Some (handleRefreshLink (st failedPlayback) failedPlayback).
Proof. split; vm_compute; reflexivity. Qed.

(** C2, amended: in every step of a refresh, whatever else happens in
    between, a call that throws (the POST rejected, which covers network
    errors and non-2xx answers, or the re-fetch rejected) ends the handler
    with playbackError set, and every end of the handler clears the
    refreshing flag in that final step.  An end without a throw does not
    set playbackError: after the re-fetch (record missing, selected
    quality missing, or no live player) it leaves it false, after a
    response without new_url and after the playback attempt it leaves it
    as it is.  Each step either ends the handler or suspends it at a later
    await, so a refresh whose awaits settle ends.  The click itself
    changes nothing when the guard fails and otherwise sets the refreshing
    flag, clears playbackError and suspends at the POST.  With nothing in
    between, a refresh that passes the guard ends with playbackError set
    exactly when something threw. *)
Theorem handleRefreshLink_outcomes (w : World) (post refetch play : Outcome) :
  (refreshArmed (st w) = true ->
   isPostOutcome post = true ->
   isMovieOutcome refetch = true ->
   isPlayOutcome play = true ->
   exists w',
     complete [post; refetch; play] (List.length (pending w))
              (handleRefreshLink (st w) w) = Some w'
     /\ isRefreshing (st w') = false
     /\ playbackError (st w') = refreshThrows post refetch
     /\ pending w' = pending w)
  /\ (forall i t o,
        nth_error (pending w) i = Some t ->
        isRefreshTask t = true ->
        outcomeFits t o = true ->
        exists w',
          step (Settle i o) w = Some w'
          /\ ((pending w' = remove_nth i (pending w)
               /\ isRefreshing (st w') = false
               /\ playbackError (st w') =
                    (if refreshThrew t o then true
                     else match t with
                          | RefreshRefetchPending _ _ _ => false
                          | _ => playbackError (st w)
                          end))
              \/ (refreshThrew t o = false
                  /\ exists t',
                       pending w' = (remove_nth i (pending w) ++ [t'])%list
                       /\ isRefreshTask t' = true
                       /\ (refreshStage t' < refreshStage t)%nat
                       /\ isRefreshing (st w') = isRefreshing (st w))))
  /\ (refreshArmed (st w) = false -> handleRefreshLink (st w) w = w)
  /\ (refreshArmed (st w) = true ->
      exists t,
        pending (handleRefreshLink (st w) w) = (pending w ++ [t])%list
        /\ isRefreshTask t = true
        /\ isRefreshing (st (handleRefreshLink (st w) w)) = true
        /\ playbackError (st (handleRefreshLink (st w) w)) = false).
Proof.
  split; [|split; [|split]]; cycle 2.
  - unfold refreshArmed, handleRefreshLink, truthy_str.
    destruct (movie (st w)) as [m|]; [|reflexivity].
    destruct (selectedQuality (st w)) as [q|]; [|reflexivity].
    destruct (q =? ""); [reflexivity|].
    destruct (isRefreshing (st w)); [reflexivity|discriminate].
  - intros Harm.
    destruct (refreshArmed_inv _ Harm) as (m & q & Hm & Hq & Hne & Hr).
    rewrite (handleRefreshLink_armed w m q Hm Hq Hne Hr).
    eexists. fields. repeat split.
  - intros Harm Hpost Hfetch Hplay.
    destruct (refreshArmed_inv _ Harm) as (m & q & Hm & Hq & Hne & Hr).
    rewrite (handleRefreshLink_armed w m q Hm Hq Hne Hr).
    destruct w as [s pl rq pc pd].
    erewrite complete_more; [|reflexivity|simpl; lia].
    destruct post as [| res | |]; try discriminate; simpl settle;
      [|handler_ends].
    unfold handleRefreshLink_posted, refreshThrows.
    destruct (new_url res =? ""); [handler_ends|].
    erewrite complete_more; [|reflexivity|simpl; lia].
    destruct refetch as [fresh| | |]; try discriminate; simpl settle;
      [|handler_ends].
    unfold handleRefreshLink_refetched.
    destruct (findQuality q fresh) as [fq|]; [|handler_ends].
    simpl. destruct pl; [|handler_ends].
    erewrite complete_more; [|reflexivity|simpl; lia].
    destruct play; try discriminate; simpl settle; handler_ends.
  - intros i t o Hn Ht Ho. unfold step. rewrite Hn.
    destruct t as [c k|c|c m q|c m q|c]; try discriminate Ht;
      destruct o as [data|res| |]; try discriminate Ho; cbn [settle refreshThrew];
      unfold handleRefreshLink_posted, handleRefreshLink_refetched,
        refresh_catch, refresh_finally.
    + destruct (new_url res =? ""); eexists; (split; [reflexivity|]); fields.
      * left. repeat split.
      * right. split; [reflexivity|]. eexists. repeat split. simpl. lia.
    + eexists. split; [reflexivity|]. fields. left. repeat split.
    + destruct (findQuality q data) as [fq|]; fields;
        [destruct (player w)|]; eexists; (split; [reflexivity|]); fields.
      * right. split; [reflexivity|]. eexists. repeat split. simpl. lia.
      * left. repeat split.
      * left. repeat split.
    + eexists. split; [reflexivity|]. fields. left. repeat split.
    + eexists. split; [reflexivity|]. fields. left. repeat split.
    + eexists. split; [reflexivity|]. fields. left. repeat split.
Qed.

Lemma handleRefreshLink_outcomes_witness :
  (exists w',
     complete [PostReturned (link "x"); Rejected; PlayStarted]
              (List.length (pending failedPlayback))
              (handleRefreshLink (st failedPlayback) failedPlayback) = Some w'
     /\ isRefreshing (st w') = false
     /\ playbackError (st w') = true
     /\ pending w' = pending failedPlayback)
  /\ (exists w',
        step (Settle 0 Rejected) refetchInFlight = Some w'
        /\ pending w' = remove_nth 0 (pending refetchInFlight)
        /\ isRefreshing (st w') = false
        /\ playbackError (st w') = true)
  /\ handleRefreshLink (st refreshInFlight) refreshInFlight = refreshInFlight
  /\ (exists t,
        pending (handleRefreshLink (st failedPlayback) failedPlayback)
        = (pending failedPlayback ++ [t])%list
        /\ isRefreshTask t = true
        /\ isRefreshing (st (handleRefreshLink (st failedPlayback) failedPlayback)) = true
        /\ playbackError (st (handleRefreshLink (st failedPlayback) failedPlayback))
           = false).
Proof.
  split; [|split; [|split]]; cycle 2.
  - apply (proj1 (proj2 (proj2 (handleRefreshLink_outcomes refreshInFlight
                                  Rejected Rejected Rejected)))).
    reflexivity.
  - apply (proj2 (proj2 (proj2 (handleRefreshLink_outcomes failedPlayback
                                  Rejected Rejected Rejected)))).
    reflexivity.
  - apply (proj1 (handleRefreshLink_outcomes failedPlayback
                    (PostReturned (link "x")) Rejected PlayStarted));
      reflexivity.
  - destruct (proj1 (proj2 (handleRefreshLink_outcomes refetchInFlight
                              Rejected Rejected Rejected))
                0%nat (RefreshRefetchPending (st failedPlaybackOpen) film "1080p")
                Rejected eq_refl eq_refl eq_refl)
      as (w' & E & [(H1 & H2 & H3)|(F & _)]).
    + exists w'. repeat split; assumption.
    + discriminate F.
Defined.

(** ** Loading a record *)

Lemma fetch_done_transient (c : State) (k : Caller) (w : World) :
  selectedQuality (st (fetch_done c k w)) = selectedQuality (st w)
  /\ isRefreshing (st (fetch_done c k w)) = isRefreshing (st w)
  /\ playbackError (st (fetch_done c k w)) = playbackError (st w).
Proof.
  destruct k as [|qd]; simpl; [now repeat split|].
  unfold handleQualitySelect_resume. destruct (player w); now repeat split.
Qed.

Lemma fetch_returned_selection (c : State) (k : Caller) (data : Movie) (w : World) :
  selectedQuality (st (fetchMovieData_returned c k (Some data) w)) =
    if truthy_str (selectedQuality c) then selectedQuality (st w)
    else Some (firstQuality data).
Proof.
  unfold fetchMovieData_returned.
  rewrite (proj1 (fetch_done_transient _ _ _)).
  now destruct (truthy_str (selectedQuality c)).
Qed.

(** C7, as stated, fails in two ways.  On a record whose first entry has
    an empty label the code's [|| 'Default'] selects "Default", which is
    not the label of the first entry.  And in [lateFetch] a fetch that was
    started before any quality was selected returns after the user has
    picked "1080p": its [!selectedQuality] still reads the value of the
    render that started it, and the pick is replaced by "480p". *)
Lemma default_quality_unlabelled :
  (exists w,
     run [Settle 0 (MovieReturned (Some unlabelled))] (mount (Some "m3") false) = Some w
     /\ selectedQuality (st w) = Some "Default"
     /\ spec_defaultQuality unlabelled = Some ""
     /\ selectedQuality (st w) <> spec_defaultQuality unlabelled)
  /\ (exists w1 w2,
        run [RouteChange (Some "m2"); Settle 0 (MovieReturned (Some film));
             PickQuality "1080p"] (mount (Some "m1") false) = Some w1
        /\ selectedQuality (st w1) = Some "1080p"
        /\ step (Settle 0 (MovieReturned (Some otherFilm))) w1 = Some w2
        /\ selectedQuality (st w2) = Some "480p"
        /\ run lateFetch (mount (Some "m1") false) = Some w2).
Proof.
  split.
  - eexists. split; [vm_compute; reflexivity|].
    repeat split; try reflexivity. simpl. discriminate.
  - do 2 eexists. split; [vm_compute; reflexivity|].
    split; [reflexivity|]. split; [vm_compute; reflexivity|].
    split; [reflexivity|]. vm_compute. reflexivity.
Qed.

(** C7, amended: after a successful fetch, if no quality is selected
    (null or the empty string), neither in the render that started the
    fetch nor when the record arrives, the selected quality is set to the
    label of the first entry when the list has one with a non-empty
    label, and to "Default" otherwise; for [720p, 1080p] it is "720p".  A
    fetch that was started by a render in which a quality was selected
    leaves the selected quality as it is.  Nothing is stated for a fetch
    that was started with no quality selected and returns after one was
    picked. *)
Theorem fetch_default_quality (c : State) (k : Caller) (data : Movie) (w : World) :
  (truthy_str (selectedQuality c) = false ->
   truthy_str (selectedQuality (st w)) = false ->
     selectedQuality (st (fetchMovieData_returned c k (Some data) w))
     = Some (firstQuality data))
  /\ (forall q rest, video_qualities data = q :: rest -> quality q <> "" ->
        firstQuality data = quality q)
  /\ (forall q rest, video_qualities data = q :: rest -> quality q = "" ->
        firstQuality data = "Default")
  /\ (video_qualities data = [] -> firstQuality data = "Default")
  /\ firstQuality film = "720p"
  /\ (truthy_str (selectedQuality c) = true ->
        selectedQuality (st (fetchMovieData_returned c k (Some data) w))
        = selectedQuality (st w)).
Proof.
  repeat split.
  - intros H _. now rewrite fetch_returned_selection, H.
  - intros q rest E Hq. unfold firstQuality. rewrite E.
    now rewrite (proj2 (String.eqb_neq _ _) Hq).
  - intros q rest E Hq. unfold firstQuality. now rewrite E, Hq.
  - intros E. unfold firstQuality. now rewrite E.
  - intros H. now rewrite fetch_returned_selection, H.
Qed.

Lemma fetch_default_quality_witness :
  selectedQuality (st (fetchMovieData_returned (initialState (Some "m1")) FromEffect
                         (Some film) (mount (Some "m1") false)))
  = Some "720p"
  /\ firstQuality unlabelled = "Default"
  /\ selectedQuality (st (fetchMovieData_returned (st watching) FromEffect
                            (Some otherFilm) watching))
     = Some "1080p".
Proof.
  pose proof (fetch_default_quality (initialState (Some "m1")) FromEffect film
                (mount (Some "m1") false)) as (H1 & H2 & _).
  pose proof (fetch_default_quality (st watching) FromEffect unlabelled watching)
    as (_ & _ & H3 & _).
  pose proof (fetch_default_quality (st watching) FromEffect otherFilm watching)
    as (_ & _ & _ & _ & _ & H6).
  split; [|split].
  - rewrite (H1 eq_refl eq_refl).
    rewrite (H2 (mkVideoQuality "720p" "a") [mkVideoQuality "1080p" "b"] eq_refl);
      [reflexivity|simpl; discriminate].
  - exact (H3 (mkVideoQuality "" "r") [mkVideoQuality "720p" "s"] eq_refl eq_refl).
  - exact (H6 eq_refl).
Defined.

(** ** A change of the content identifier *)

(** C4, as stated, fails: the effect on [movieId] only calls
    [fetchMovieData()].  From the page of [film] with "1080p" selected,
    the dialog open and a playback error shown, a change of the route
    to "m2" leaves the selection, the dialog and the error flag as they
    were, before and after the record of "m2" arrives (which has no
    "1080p" entry). *)
Lemma routeChange_keeps_transient :
  transient (initialState (Some "m2")) = (None, false, false, false)
  /\ exists w1 w2,
       step (RouteChange (Some "m2")) failedPlaybackOpen = Some w1
       /\ transient (st w1) = (Some "1080p", true, false, true)
       /\ step (Settle 0 (MovieReturned (Some otherFilm))) w1 = Some w2
       /\ movie (st w2) = Some otherFilm
       /\ transient (st w2) = (Some "1080p", true, false, true).
Proof.
  split; [reflexivity|].
  do 2 eexists. split; [vm_compute; reflexivity|].
  split; [reflexivity|]. split; [vm_compute; reflexivity|].
  split; reflexivity.
Qed.

Lemma failedPlaybackOpen_reachable :
  run (toWatching ++ [VideoError]) (mount (Some "m1") false) = Some failedPlaybackOpen.
Proof. vm_compute. reflexivity. Qed.

(** C4, amended: a change of the content identifier resets none of the
    transient state.  It updates the route parameter and starts a
    non-forced fetch for the new identifier, or, for a missing or empty
    identifier, issues no request and sets the message "Invalid movie ID";
    the selected quality, the player-visible flag, the refreshing flag and
    the playback-error flag keep their values.  When the new record
    arrives the three flags are again unchanged and, if a quality was
    selected at the time of the change, so is the selected quality.  The
    four fields are given their reset values by the initial state of a
    mount. *)
Theorem routeChange_transient (newId : option string) (w : World) :
  transient (st (routeChange newId w)) = transient (st w)
  /\ movieId (st (routeChange newId w)) = newId
  /\ requests (routeChange newId w) =
       (if truthy_str newId
        then match newId with
             | Some i => (requests w ++ [GetMovieById i false])%list
             | None => requests w
             end
        else requests w)
  /\ error (st (routeChange newId w)) =
       (if truthy_str newId then error (st w) else Some "Invalid movie ID")
  /\ (forall c data w2,
        showPlayer (st (fetchMovieData_returned c FromEffect (Some data) w2))
        = showPlayer (st w2)
        /\ isRefreshing (st (fetchMovieData_returned c FromEffect (Some data) w2))
           = isRefreshing (st w2)
        /\ playbackError (st (fetchMovieData_returned c FromEffect (Some data) w2))
           = playbackError (st w2)
        /\ (truthy_str (selectedQuality c) = true ->
            selectedQuality (st (fetchMovieData_returned c FromEffect (Some data) w2))
            = selectedQuality (st w2)))
  /\ (forall routeId, transient (initialState routeId) = (None, false, false, false)).
Proof.
  split; [|split; [|split; [|split; [|split]]]].
  - unfold routeChange, fetchMovieData. simpl.
    destruct newId as [i|]; [destruct (i =? "")|]; reflexivity.
  - unfold routeChange, fetchMovieData. simpl.
    destruct newId as [i|]; [destruct (i =? "")|]; reflexivity.
  - unfold routeChange, fetchMovieData, truthy_str. simpl.
    destruct newId as [i|]; [destruct (i =? "")|]; reflexivity.
  - unfold routeChange, fetchMovieData, truthy_str. simpl.
    destruct newId as [i|]; [destruct (i =? "")|]; reflexivity.
  - intros c data w2. split; [|split; [|split]].
    + unfold fetchMovieData_returned. simpl.
      now destruct (truthy_str (selectedQuality c)).
    + unfold fetchMovieData_returned. simpl.
      now destruct (truthy_str (selectedQuality c)).
    + unfold fetchMovieData_returned. simpl.
      now destruct (truthy_str (selectedQuality c)).
    + intros H. now rewrite fetch_returned_selection, H.
  - reflexivity.
Qed.

Lemma routeChange_transient_witness :
  transient (st (routeChange (Some "m2") failedPlaybackOpen))
  = transient (st failedPlaybackOpen)
  /\ error (st (routeChange (Some "") failedPlaybackOpen)) = Some "Invalid movie ID"
  /\ selectedQuality
       (st (fetchMovieData_returned
              (st (routeChange (Some "m2") failedPlaybackOpen)) FromEffect
              (Some otherFilm)
              (setPending [] (routeChange (Some "m2") failedPlaybackOpen))))
     = Some "1080p".
Proof.
  pose proof (routeChange_transient (Some "m2") failedPlaybackOpen)
    as (H1 & _ & _ & _ & H5 & _).
  pose proof (routeChange_transient (Some "") failedPlaybackOpen)
    as (_ & _ & _ & H4 & _).
  split; [exact H1|]. split; [exact H4|].
  destruct (H5 (st (routeChange (Some "m2") failedPlaybackOpen)) otherFilm
               (setPending [] (routeChange (Some "m2") failedPlaybackOpen)))
    as (_ & _ & _ & H).
  rewrite (H eq_refl). reflexivity.
Defined.

(** ** The playback-error callback *)

(** C5, as stated, fails while a refresh is in flight: the guard of
    [handleVideoError] returns before [setPlaybackError(true)].  After a
    click on "Refresh Link" in [failedPlaybackOpen] the refresh is in
    flight, and the callback leaves playbackError false. *)
Lemma videoError_ignored_while_refreshing :
  isRefreshing (st refreshInFlight) = true
  /\ playbackError (st refreshInFlight) = false
  /\ step VideoError refreshInFlight = Some refreshInFlight.
Proof. repeat split; vm_compute; reflexivity. Qed.

(** The same in the world reached by [overlappingPick], where every click
    was made while the dialog was closed: the dialog is open again on a
    live player, the refresh is in flight, and the callback is ignored. *)
Lemma videoError_ignored_in_trace :
  exists w w',
    run overlappingPick (mount (Some "m1") false) = Some w
    /\ showPlayer (st w) = true
    /\ isRefreshing (st w) = true
    /\ step VideoError w = Some w'
    /\ playbackError (st w') = false.
Proof.
  do 2 eexists. split; [vm_compute; reflexivity|].
  split; [reflexivity|]. split; [reflexivity|].
  split; [vm_compute; reflexivity|]. reflexivity.
Qed.

Lemma armed_not_refreshing (c : State) :
  errorCallbackArmed c = true ->
  truthy_str (selectedQuality c) = true /\ isRefreshing c = false.
Proof.
  unfold errorCallbackArmed. destruct (movie c); [|discriminate].
  intros H. apply andb_true_iff in H as [H1 H2].
  split; [exact H1|now apply negb_true_iff].
Qed.

Lemma handleVideoError_armed (c : State) (w : World) :
  errorCallbackArmed c = true ->
  handleVideoError c w = update (setPlaybackError true) w.
Proof.
  intros H. destruct (armed_not_refreshing c H) as [H1 H2].
  unfold handleVideoError, errorCallbackArmed in *.
  destruct (movie c); [|discriminate]. now rewrite H1, H2.
Qed.

Lemma handleVideoError_unarmed (c : State) (w : World) :
  errorCallbackArmed c = false -> handleVideoError c w = w.
Proof.
  unfold handleVideoError, errorCallbackArmed.
  destruct (movie c); [|reflexivity].
  destruct (truthy_str (selectedQuality c)), (isRefreshing c);
    simpl; intros H; try reflexivity; discriminate.
Qed.

Lemma handleRefreshLink_refreshing (c : State) (w : World) :
  isRefreshing c = true -> handleRefreshLink c w = w.
Proof.
  intros H. unfold handleRefreshLink. rewrite H.
  destruct (movie c); [|reflexivity].
  destruct (selectedQuality c); [|reflexivity].
  now rewrite orb_true_r.
Qed.

(** C5, amended: when the callback runs in a render that has a record,
    a non-empty selected quality and no refresh in flight, playbackError
    becomes true, and on the detail view the refresh button is then
    available; in any other render the callback changes nothing.
    Invoking the refresh handler while a refresh is in flight changes
    nothing and issues no request, and the button is disabled. *)
Theorem videoError_guarded (c : State) (w : World) :
  (errorCallbackArmed c = true ->
     handleVideoError c w = update (setPlaybackError true) w
     /\ playbackError (st (handleVideoError c w)) = true)
  /\ (errorCallbackArmed (st w) = true -> detailShown (st w) = true ->
        step ClickRefresh (handleVideoError (st w) w) <> None)
  /\ (errorCallbackArmed c = false -> handleVideoError c w = w)
  /\ (isRefreshing c = true -> handleRefreshLink c w = w)
  /\ (isRefreshing (st w) = true -> step ClickRefresh w = None).
Proof.
  repeat split.
  - now apply handleVideoError_armed.
  - now rewrite handleVideoError_armed.
  - intros H Hd. rewrite (handleVideoError_armed _ _ H).
    destruct (armed_not_refreshing _ H) as [_ Hr].
    destruct w as [s pl rq pc pd]. simpl in *.
    unfold detailShown, view in *. simpl. rewrite Hr.
    destruct (isLoading s); [discriminate|].
    destruct (truthy_str (error s)); [discriminate|].
    destruct (movie s); [|discriminate]. simpl. discriminate.
  - apply handleVideoError_unarmed.
  - apply handleRefreshLink_refreshing.
  - intros H. unfold step. rewrite H. simpl. now rewrite !andb_false_r.
Qed.

Lemma videoError_guarded_witness :
  (handleVideoError (st watching) watching = update (setPlaybackError true) watching
   /\ playbackError (st (handleVideoError (st watching) watching)) = true)
  /\ step ClickRefresh (handleVideoError (st watching) watching) <> None
  /\ handleVideoError (setIsRefreshing true (st watching)) watching = watching
  /\ handleRefreshLink (setIsRefreshing true (st watching)) watching = watching
  /\ step ClickRefresh (update (setIsRefreshing true) failedPlayback) = None.
Proof.
  pose proof (videoError_guarded (st watching) watching) as (H1 & H2 & _).
  pose proof (videoError_guarded (setIsRefreshing true (st watching)) watching)
    as (_ & _ & H3 & H4 & _).
  pose proof (videoError_guarded (st failedPlayback)
                (update (setIsRefreshing true) failedPlayback))
    as (_ & _ & _ & _ & H5).
  split; [exact (H1 eq_refl)|]. split; [exact (H2 eq_refl eq_refl)|].
  split; [exact (H3 eq_refl)|]. split; [exact (H4 eq_refl)|].
  exact (H5 eq_refl).
Defined.

(** ** Refreshing and playback error together *)

(** C10: the claim says that the refreshing flag and the playback-error
    flag are never both true once a handler has completed.
    [handleQualitySelect] calls the [handleVideoError] of its own
    render when [play()] rejects, and that render's [isRefreshing] is
    the value from before the click.  In [staleErrorTrace] pick X is
    made before the refresh starts; its fetch returns during the
    refresh, its [play()] rejects, and the stale guard lets
    [setPlaybackError(true)] through while the refresh is still in
    flight. *)
Theorem stale_error_during_refresh :
  exists w,
    run staleErrorTrace (mount (Some "m1") false) = Some w
    /\ isRefreshing (st w) = true
    /\ playbackError (st w) = true
    /\ exclusive (st w) = false
    /\ (exists c m q, pending w = [RefreshPostPending c m q]).
Proof.
  eexists. split; [vm_compute; reflexivity|].
  repeat split; try reflexivity. do 3 eexists. reflexivity.
Qed.

(** Apart from that stale rejection every turn of the event loop keeps
    the two flags exclusive. *)

Lemma fetch_done_flags (c : State) (k : Caller) (w : World) :
  flags (fetch_done c k w) = flags w.
Proof.
  unfold flags. destruct (fetch_done_transient c k w) as (_ & -> & ->).
  reflexivity.
Qed.

Lemma fetchMovieData_flags (c : State) (b : bool) (k : Caller) (w : World) :
  flags (fetchMovieData c b k w) = flags w.
Proof.
  unfold fetchMovieData, invalidId.
  destruct (movieId c) as [i|]; [destruct (i =? "")|];
    rewrite ?fetch_done_flags; reflexivity.
Qed.

Lemma fetchMovieData_returned_flags (c : State) (k : Caller)
    (data : option Movie) (w : World) :
  flags (fetchMovieData_returned c k data w) = flags w.
Proof.
  unfold fetchMovieData_returned. destruct data as [d|].
  - rewrite fetch_done_flags.
    destruct (truthy_str (selectedQuality c)); reflexivity.
  - now rewrite fetch_done_flags.
Qed.

Lemma fetchMovieData_threw_flags (c : State) (k : Caller) (w : World) :
  flags (fetchMovieData_threw c k w) = flags w.
Proof. unfold fetchMovieData_threw. now rewrite fetch_done_flags. Qed.

Lemma exclusive_flags (w w' : World) :
  flags w' = flags w -> exclusive (st w) = true -> exclusive (st w') = true.
Proof. unfold flags, exclusive. intros H. injection H as -> ->. auto. Qed.

Lemma exclusive_no_error (w w' : World) :
  flags w' = (isRefreshing (st w), false) -> exclusive (st w') = true.
Proof.
  unfold flags, exclusive. intros H. injection H as -> ->.
  now rewrite andb_false_r.
Qed.

Lemma exclusive_not_refreshing (s : State) :
  isRefreshing s = false -> exclusive s = true.
Proof. unfold exclusive. now intros ->. Qed.

Lemma exclusive_not_failed (s : State) :
  playbackError s = false -> exclusive s = true.
Proof. unfold exclusive. intros ->. now rewrite andb_false_r. Qed.

Lemma handleQualitySelect_exclusive (c : State) (label : string) (w : World) :
  exclusive (st w) = true ->
  exclusive (st (handleQualitySelect c label w)) = true.
Proof.
  intros H. unfold handleQualitySelect.
  destruct (findQuality label (movie c)); [|exact H].
  eapply exclusive_no_error. rewrite fetchMovieData_flags. reflexivity.
Qed.

Lemma handleVideoError_exclusive (c : State) (w : World) :
  exclusive (st w) = true ->
  negb (isRefreshing c) && isRefreshing (st w) = false ->
  exclusive (st (handleVideoError c w)) = true.
Proof.
  intros H Hs. destruct (errorCallbackArmed c) eqn:E.
  - rewrite (handleVideoError_armed _ _ E).
    destruct (armed_not_refreshing _ E) as [_ Hr]. rewrite Hr in Hs.
    apply exclusive_not_refreshing. exact Hs.
  - now rewrite (handleVideoError_unarmed _ _ E).
Qed.

Lemma handleRefreshLink_exclusive (c : State) (w : World) :
  exclusive (st w) = true ->
  exclusive (st (handleRefreshLink c w)) = true.
Proof.
  intros H. unfold handleRefreshLink.
  destruct (movie c); [|exact H].
  destruct (selectedQuality c) as [q|]; [|exact H].
  destruct ((q =? "") || isRefreshing c); [exact H|].
  now apply exclusive_not_failed.
Qed.

Lemma settle_exclusive (t : Task) (o : Outcome) (w w' : World) :
  exclusive (st w) = true ->
  (forall c, t = SelectPlayPending c -> o = Rejected ->
             negb (isRefreshing c) && isRefreshing (st w) = false) ->
  settle t o w = Some w' ->
  exclusive (st w') = true.
Proof.
  intros H Hs E.
  destruct t as [c k|c|c m q|c m q|c], o as [data|res| |];
    try discriminate E; injection E as <-.
  - eapply exclusive_flags; [apply fetchMovieData_returned_flags|exact H].
  - eapply exclusive_flags; [apply fetchMovieData_threw_flags|exact H].
  - exact H.
  - apply handleVideoError_exclusive; [exact H|now apply Hs].
  - unfold handleRefreshLink_posted.
    destruct (new_url res =? ""); [now apply exclusive_not_refreshing|exact H].
  - now apply exclusive_not_refreshing.
  - unfold handleRefreshLink_refetched.
    destruct (findQuality q data); [destruct (player _)|];
      now apply exclusive_not_failed.
  - now apply exclusive_not_refreshing.
  - now apply exclusive_not_refreshing.
  - now apply exclusive_not_refreshing.
Qed.

Lemma exclusive_step (e : Event) (w w' : World) :
  exclusive (st w) = true ->
  staleReject e w = false ->
  step e w = Some w' ->
  exclusive (st w') = true.
Proof.
  intros H Hs E. destruct e as [newId|label| | |open|live|i o]; simpl in E.
  - destruct (sameId newId (movieId (st w))); [discriminate|].
    injection E as <-. unfold routeChange.
    eapply exclusive_flags; [apply fetchMovieData_flags|exact H].
  - destruct (detailShown (st w) && _); [|discriminate].
    injection E as <-. now apply handleQualitySelect_exclusive.
  - destruct (detailShown (st w) && _); [|discriminate].
    injection E as <-. apply handleVideoError_exclusive; [exact H|].
    now destruct (isRefreshing (st w)).
  - destruct (detailShown (st w) && _ && _); [|discriminate].
    injection E as <-. now apply handleRefreshLink_exclusive.
  - destruct (detailShown (st w)); [|discriminate].
    injection E as <-. exact H.
  - injection E as <-. exact H.
  - destruct (nth_error (pending w) i) as [t|] eqn:Et; [|discriminate].
    eapply settle_exclusive; [| |exact E]; [exact H|].
    intros c -> ->. simpl in Hs. rewrite Et in Hs. exact Hs.
Qed.

Lemma exclusive_mount (routeId : option string) (narrow : bool) :
  exclusive (st (mount routeId narrow)) = true.
Proof.
  unfold mount, fetchMovieData. simpl.
  destruct routeId as [i|]; [destruct (i =? "")|]; reflexivity.
Qed.

Lemma exclusive_runFresh (es : list Event) (w w' : World) :
  exclusive (st w) = true ->
  runFresh es w = Some w' ->
  exclusive (st w') = true.
Proof.
  revert w. induction es as [|e es IH]; intros w H E; simpl in E.
  - now injection E as <-.
  - destruct (staleReject e w) eqn:Hs; [discriminate|].
    destruct (step e w) as [w1|] eqn:E1; [|discriminate].
    apply (IH w1); [|exact E].
    exact (exclusive_step e w w1 H Hs E1).
Qed.

(** From the mount on, the flags stay exclusive as long as no stale
    rejection occurs. *)
Lemma exclusive_from_mount (routeId : option string) (narrow : bool)
    (es : list Event) (w : World) :
  runFresh es (mount routeId narrow) = Some w ->
  exclusive (st w) = true.
Proof. apply exclusive_runFresh, exclusive_mount. Qed.

(** The stale rejection of [staleErrorTrace] is its last event. *)
Lemma staleErrorTrace_is_stale :
  exists w,
    run overlappingPick (mount (Some "m1") false) = Some w
    /\ exclusive (st w) = true
    /\ exists w1,
         step (Settle 0 (MovieReturned (Some film))) w = Some w1
         /\ staleReject (Settle 1 Rejected) w1 = true.
Proof.
  eexists. split; [vm_compute; reflexivity|]. split; [reflexivity|].
  eexists. split; vm_compute; reflexivity.
Qed.

End DetailPage.

(** * Further properties of the playback control bar *)

Section ControlBarMore.
Import Js MusicPlayer.

Lemma Qfloor_of_Z (z : Z) : Qfloor (Q2Qc (inject_Z z)) = z.
Proof.
  unfold Q2Qc. cbn [this].
  rewrite (Qfloor_comp _ _ (Qred_correct (inject_Z z))). apply Qfloor_Z.
Qed.

Lemma Qfloor_nonneg (q : Qc) : (0 <= q)%Qc -> (0 <= Qfloor q)%Z.
Proof.
  intros H. change 0%Z with (Qfloor (inject_Z 0)).
  apply Qfloor_resp_le. exact H.
Qed.

Lemma Qc_compare_of_Z (a b : Z) :
  (Q2Qc (inject_Z a) ?= Q2Qc (inject_Z b))%Qc = (a ?= b)%Z.
Proof.
  unfold Qccompare, Q2Qc. cbn [this].
  rewrite (Qcompare_comp _ _ (Qred_correct _) _ _ (Qred_correct _)).
  unfold Qcompare, inject_Z. simpl. now rewrite !Z.mul_1_r.
Qed.

(** X1: for every positive finite number of seconds below 2^52, the
    range in which the quotient and the numerals of the model are those of
    the doubles the code computes with, [formatTime] gives the whole
    minutes [floor(seconds) / 60] as a plain numeral, a colon, and the
    seconds [floor(seconds) mod 60], which lie in 0..59 and are written on
    exactly two digits. *)
Theorem formatTime_minutes_seconds (q : Qc) :
  (0 < q)%Qc ->
  (q < Q2Qc (inject_Z (2 ^ 52)))%Qc ->
  exists m s : Z,
    m = (Qfloor q / 60)%Z /\ s = (Qfloor q mod 60)%Z
    /\ (0 <= m < 2 ^ 52)%Z /\ (0 <= s < 60)%Z
    /\ formatTime (Finite q) = toString (Int m) ++ ":" ++ pad2 s
    /\ String.length (pad2 s) = 2%nat.
Proof.
  intros H B.
  assert (F : (0 <= Qfloor q)%Z) by (apply Qfloor_nonneg, Qlt_le_weak, H).
  assert (U : (Qfloor q < 2 ^ 52)%Z).
  { rewrite Zlt_Qlt. apply Qle_lt_trans with q; [apply Qfloor_le|].
    rewrite <- (Qred_correct (inject_Z (2 ^ 52))). exact B. }
  assert (S : (0 <= Qfloor q mod 60 < 60)%Z) by (apply Z.mod_pos_bound; lia).
  exists (Qfloor q / 60)%Z, (Qfloor q mod 60)%Z.
  split; [reflexivity|]. split; [reflexivity|]. split; [|split; [exact S|split]].
  - split; [apply Z.div_pos; lia|].
    apply Z.le_lt_trans with (Qfloor q); [|exact U].
    apply Z.div_le_upper_bound; lia.
  - now apply formatTime_positive.
  - now apply pad2_two_digits.
Qed.

Lemma formatTime_minutes_seconds_witness :
  exists m s : Z,
    m = (Qfloor (Q2Qc (725 # 2)) / 60)%Z /\ s = (Qfloor (Q2Qc (725 # 2)) mod 60)%Z
    /\ (0 <= m < 2 ^ 52)%Z /\ (0 <= s < 60)%Z
    /\ formatTime (Finite (Q2Qc (725 # 2))) = toString (Int m) ++ ":" ++ pad2 s
    /\ String.length (pad2 s) = 2%nat.
Proof.
  apply (formatTime_minutes_seconds (Q2Qc (725 # 2))); reflexivity.
Defined.

(** X2: on a non-negative finite input [formatTime] only looks at the
    whole seconds: a fractional position renders like its floor. *)
Theorem formatTime_whole_seconds (q : Qc) :
  (0 <= q)%Qc ->
  formatTime (Finite q) = formatTime (of_Z (Qfloor q)).
Proof.
  intros H. pose proof (Qfloor_nonneg q H) as F.
  destruct (Qcle_lt_or_eq _ _ H) as [Hpos|Hz].
  - rewrite (formatTime_positive q Hpos).
    destruct (Z.eq_dec (Qfloor q) 0) as [E|E].
    + rewrite E. reflexivity.
    + unfold of_Z. rewrite formatTime_positive.
      * now rewrite Qfloor_of_Z.
      * apply Qclt_alt. change (Q2Qc 0) with (Q2Qc (inject_Z 0)).
        rewrite Qc_compare_of_Z. apply Z.compare_lt_iff. lia.
  - subst q. reflexivity.
Qed.

Lemma formatTime_whole_seconds_witness :
  formatTime (Finite (Q2Qc (131 # 2))) = formatTime (of_Z (Qfloor (Q2Qc (131 # 2)))).
Proof. apply (formatTime_whole_seconds (Q2Qc (131 # 2))). discriminate. Defined.

(** X3: the effective duration is never NaN, whatever the live duration
    and the record hold; and whenever the seek slider is disabled, the
    total-time label next to it reads "0:00". *)
Theorem effectiveDuration_label (duration : number) (currentTrack : option Track) :
  isNaN (effectiveDuration duration currentTrack) = false
  /\ (seekDisabled duration currentTrack = true ->
      formatTime (effectiveDuration duration currentTrack) = "0:00").
Proof.
  split.
  - unfold effectiveDuration. destruct (gt duration zero) eqn:G.
    + destruct duration; try reflexivity. discriminate G.
    + rewrite or_zero_cases.
      destruct (nominalDuration currentTrack) as [[| | |n]|]; reflexivity.
  - intros H. apply strict_eq_zero in H. now rewrite H.
Qed.

Lemma effectiveDuration_label_witness :
  isNaN (effectiveDuration NaN (Some nanTrack)) = false
  /\ formatTime (effectiveDuration NaN (Some nanTrack)) = "0:00".
Proof.
  destruct (effectiveDuration_label NaN (Some nanTrack)) as [H1 H2].
  split; [exact H1|]. apply H2. reflexivity.
Defined.

(** The muted glyph is shown for the volume 0 and for no other number. *)
Lemma VolumeIcon_muted (v : number) : VolumeIcon v = VolumeX <-> v = zero.
Proof.
  unfold VolumeIcon, zero, of_Z. split.
  - destruct v as [| | |q]; simpl; try discriminate.
    destruct (q ?= Q2Qc (inject_Z 0))%Qc eqn:E.
    + intros _. f_equal. now apply Qceq_alt.
    + destruct (q ?= Q2Qc (inject_Z 50))%Qc; discriminate.
    + destruct (q ?= Q2Qc (inject_Z 50))%Qc; discriminate.
  - intros ->. reflexivity.
Qed.

(** X4: the glyph never steps down as a non-negative volume goes up: if
    the higher of two volumes shows the muted glyph so does the lower, and
    if the lower shows the full glyph so does the higher.  The muted glyph
    is shown for the volume 0 only, not for NaN, an infinity or a negative
    or fractional volume. *)
Theorem VolumeIcon_monotone (a b : Qc) :
  (0 <= a)%Qc -> (a <= b)%Qc ->
  (VolumeIcon (Finite b) = VolumeX -> VolumeIcon (Finite a) = VolumeX)
  /\ (VolumeIcon (Finite a) = Volume2 -> VolumeIcon (Finite b) = Volume2)
  /\ (forall v : number, VolumeIcon v = VolumeX <-> v = zero).
Proof.
  intros Ha Hab. split; [|split; [|apply VolumeIcon_muted]].
  - intros H. apply VolumeIcon_muted in H. apply VolumeIcon_muted.
    injection H as ->. unfold zero, of_Z. f_equal. apply Qcle_antisym; assumption.
  - unfold VolumeIcon, strict_eq, lt, zero, of_Z.
    destruct (a ?= Q2Qc (inject_Z 0))%Qc eqn:A0; [discriminate| |];
      (destruct (a ?= Q2Qc (inject_Z 50))%Qc eqn:A50; [|discriminate|]); intros _.
    all: assert (L : (Q2Qc (inject_Z 50) <= b)%Qc)
      by (eapply Qcle_trans; [|exact Hab];
          first [apply Qceq_alt in A50; rewrite A50; apply Qcle_refl
                |apply Qcgt_alt in A50; apply Qclt_le_weak; exact A50]).
    all: assert (P : (Q2Qc (inject_Z 0) < b)%Qc)
      by (eapply Qclt_le_trans; [|exact L]; reflexivity).
    all: destruct (b ?= Q2Qc (inject_Z 0))%Qc eqn:B0;
      [apply Qceq_alt in B0; rewrite B0 in P; now apply Qclt_not_eq in P
      |apply Qclt_alt in B0; exfalso; eapply Qclt_not_le; [exact B0|]; now apply Qclt_le_weak
      |].
    all: destruct (b ?= Q2Qc (inject_Z 50))%Qc eqn:B50; try reflexivity.
    all: apply Qclt_alt in B50; exfalso; eapply Qclt_not_le; [exact B50|exact L].
Qed.

Lemma VolumeIcon_monotone_witness :
  (VolumeIcon (Finite (Q2Qc (inject_Z 100))) = VolumeX ->
   VolumeIcon (Finite (Q2Qc (inject_Z 50))) = VolumeX)
  /\ VolumeIcon (Finite (Q2Qc (inject_Z 100))) = Volume2.
Proof.
  destruct (VolumeIcon_monotone (Q2Qc (inject_Z 50)) (Q2Qc (inject_Z 100)))
    as (H1 & H2 & _); [discriminate|discriminate|].
  split; [exact H1|]. apply H2. reflexivity.
Defined.
(** X5: the play/pause and the ten-second skip buttons are disabled
    exactly when the track on display has no audio URL; in particular
    they are whenever the bar falls back to the demo track. *)
Theorem playDisabled_displayTrack (currentTrack : option Track) :
  playDisabled currentTrack = (audioUrl (displayTrack currentTrack) =? "")
  /\ (currentTrack = None ->
      displayTrack currentTrack = demo /\ playDisabled currentTrack = true).
Proof.
  split.
  - destruct currentTrack as [t|]; [|reflexivity].
    unfold playDisabled. simpl. now rewrite negb_involutive.
  - intros ->. split; reflexivity.
Qed.

Lemma playDisabled_displayTrack_witness :
  displayTrack None = demo /\ playDisabled None = true.
Proof. exact (proj2 (playDisabled_displayTrack None) eq_refl). Defined.

End ControlBarMore.

(** * Further properties of the movie detail page *)

Section DetailPageMore.
Import Js MovieDetail.

Local Arguments complete : simpl never.
Local Arguments resume : simpl never.

(** Project the updated records, without unfolding the tests on
    strings. *)
Ltac project :=
  cbn [update send call suspend setPending setPlayer
       st player requests playerCalls pending
       movieId movie isLoading error selectedQuality showPlayer isMobile
       isRefreshing playbackError
       withMovieId setMovie setIsLoading setError setSelectedQuality
       setShowPlayer setIsMobile setIsRefreshing setPlaybackError] in *.

(** Unfold the handlers, outermost first. *)
Ltac reduce :=
  unfold routeChange, handleQualitySelect, fetchMovieData, invalidId,
    fetchMovieData_returned, fetchMovieData_threw, fetch_done,
    handleQualitySelect_resume, handleVideoError, handleRefreshLink,
    handleRefreshLink_posted, handleRefreshLink_refetched,
    refresh_catch, refresh_finally, handleClosePlayer in *;
  project.

Ltac split_goal :=
  repeat match goal with
         | |- context [match ?x with _ => _ end] => destruct x eqn:?; project
         end.

(** Every turn of the event loop, handler by handler. *)
Ltac each_turn H :=
  match type of H with
  | step ?e ?w = Some _ =>
      destruct e as [newId|label| | |open|live|i o]; cbn [step] in H;
      [ destruct (sameId _ _) eqn:?; [discriminate H|]
      | destruct (detailShown _ && _) eqn:?; [|discriminate H]
      | destruct (detailShown _ && _) eqn:?; [|discriminate H]
      | destruct (detailShown _ && _ && _) eqn:?; [|discriminate H]
      | destruct (detailShown _) eqn:?; [|discriminate H]
      |
      | destruct (nth_error _ i) as [[c k|c|c m q|c m q|c]|] eqn:?;
        [| | | | |discriminate H];
        destruct o as [data|res| |]; cbn [settle] in H; try discriminate H ];
      injection H as <-
  end.

Lemma run_invariant (P : World -> Prop) :
  (forall e w w', P w -> step e w = Some w' -> P w') ->
  forall es w w', P w -> run es w = Some w' -> P w'.
Proof.
  intros Hstep es. induction es as [|e es IH]; intros w w' Hw E; simpl in E.
  - now injection E as <-.
  - destruct (step e w) as [w1|] eqn:E1; [|discriminate].
    exact (IH w1 w' (Hstep e w w1 Hw E1) E).
Qed.

Lemma step_isLoading (e : Event) (w w' : World) :
  isLoading (st w) = false -> step e w = Some w' -> isLoading (st w') = false.
Proof.
  intros L H. each_turn H; reduce; split_goal; auto.
Qed.

Lemma step_error (e : Event) (w w' : World) :
  truthy_str (error (st w)) = true -> step e w = Some w' ->
  truthy_str (error (st w')) = true.
Proof.
  intros L H. each_turn H; reduce; split_goal; auto.
Qed.


(** ** The logs of requests and of player calls *)

Lemma loadsThenPlays_app_le (n : nat) (l k : list PlayerCall) :
  (List.length l <= n)%nat ->
  loadsThenPlays l = true ->
  loadsThenPlays (l ++ k) = loadsThenPlays k.
Proof.
  revert l. induction n as [|n IH]; intros l Hn H.
  - destruct l; [reflexivity|simpl in Hn; lia].
  - destruct l as [|[u m| |] [|[| |] [|[| |] rest]]]; try discriminate H;
      [reflexivity|].
    simpl in H. apply andb_true_iff in H as [Hm Hr].
    simpl. rewrite Hm. simpl. apply IH; [simpl in Hn; lia|exact Hr].
Qed.

Lemma loadsThenPlays_app (l : list PlayerCall) (u : string) :
  loadsThenPlays l = true ->
  loadsThenPlays (l ++ [Src u mp4; Load; Play]) = true.
Proof.
  intros H. now rewrite (loadsThenPlays_app_le (List.length l) l _ (le_n _) H).
Qed.

Lemma step_playerCalls (e : Event) (w w' : World) :
  step e w = Some w' ->
  playerCalls w' = playerCalls w
  \/ (player w = true
      /\ exists u, playerCalls w' = (playerCalls w ++ [Src u mp4; Load; Play])%list).
Proof.
  intros H. each_turn H; reduce; split_goal; auto;
    right; (split; [first [assumption|reflexivity]|]);
    eexists; rewrite <- !app_assoc; reflexivity.
Qed.

Lemma step_requests (e : Event) (w w' : World) :
  forallb guardedRequest (requests w) = true -> step e w = Some w' ->
  forallb guardedRequest (requests w') = true.
Proof.
  intros L H. each_turn H; reduce; split_goal; auto;
    rewrite forallb_app, L; cbn [forallb guardedRequest andb orb negb];
    repeat match goal with
           | E : (_ =? _) = false |- _ => rewrite E
           | E : (_ || _) = false |- _ => apply orb_false_iff in E as [? ?]
           end; reflexivity.
Qed.

(** ** The refresh in flight *)

Lemma refreshTasks_app (l : list Task) (t : Task) :
  refreshTasks (l ++ [t]) = (refreshTasks l + (if isRefreshTask t then 1 else 0))%nat.
Proof.
  unfold refreshTasks. rewrite filter_app, length_app. simpl.
  now destruct (isRefreshTask t).
Qed.

Lemma refreshTasks_remove (l : list Task) (i : nat) (t : Task) :
  nth_error l i = Some t ->
  refreshTasks l
  = (refreshTasks (remove_nth i l) + (if isRefreshTask t then 1 else 0))%nat.
Proof.
  intros H. destruct (nth_error_split l i H) as (l1 & l2 & -> & <-).
  assert (E : skipn (S (List.length l1)) (l1 ++ t :: l2) = l2).
  { rewrite skipn_app, skipn_all2 by lia.
    replace (S (List.length l1) - List.length l1)%nat with 1%nat by lia.
    reflexivity. }
  assert (F : firstn (List.length l1) (l1 ++ t :: l2) = l1).
  { rewrite firstn_app, Nat.sub_diag, firstn_all. apply app_nil_r. }
  unfold remove_nth, refreshTasks. rewrite E, F, !filter_app, !length_app.
  simpl. destruct (isRefreshTask t); simpl; lia.
Qed.

Lemma step_oneRefresh (e : Event) (w w' : World) :
  oneRefresh w -> step e w = Some w' -> oneRefresh w'.
Proof.
  unfold oneRefresh. intros L H.
  each_turn H;
    try match goal with
        | E : nth_error _ _ = Some _ |- _ =>
            rewrite (refreshTasks_remove _ _ _ E) in L; cbn [isRefreshTask] in L
        end;
    try match goal with
        | E : (_ && negb (isRefreshing _)) = true |- _ =>
            apply andb_true_iff in E as [_ E]; apply negb_true_iff in E;
            rewrite E in L
        end;
    reduce; split_goal;
    rewrite ?refreshTasks_app; cbn [isRefreshTask];
    try (destruct (isRefreshing (st w)); lia); try lia.
Qed.


Lemma mount_pending (routeId : option string) (narrow : bool) :
  isRefreshing (st (mount routeId narrow)) = false
  /\ refreshTasks (pending (mount routeId narrow)) = 0%nat
  /\ playerCalls (mount routeId narrow) = []
  /\ forallb guardedRequest (requests (mount routeId narrow)) = true.
Proof.
  unfold mount, fetchMovieData, invalidId, fetch_done, initialState.
  project.
  destruct routeId as [i|]; [destruct (i =? "") eqn:E|]; project;
    repeat split; try reflexivity.
  cbn [forallb guardedRequest app orb andb]. now rewrite E.
Qed.

(** ** Invariants of the event loop *)

(** X6: once an error message is set, no event clears it: the page
    stays on the not-found view for good, also after the route changes to
    a valid identifier and its record arrives. *)
Theorem error_is_final (es : list Event) (w w' : World) :
  truthy_str (error (st w)) = true ->
  run es w = Some w' ->
  truthy_str (error (st w')) = true /\ detailShown (st w') = false.
Proof.
  intros H E.
  assert (T : truthy_str (error (st w')) = true).
  { revert H E. apply (run_invariant (fun x => truthy_str (error (st x)) = true)).
    intros e x x'. apply step_error. }
  split; [exact T|].
  unfold detailShown, view. rewrite T. now destruct (isLoading (st w')).
Qed.

Lemma error_is_final_witness :
  exists w',
    run [RouteChange (Some "m1"); Settle 0 (MovieReturned (Some film))]
        (mount (Some "") false) = Some w'
    /\ movie (st w') = Some film
    /\ truthy_str (error (st w')) = true /\ detailShown (st w') = false.
Proof.
  eexists. split; [vm_compute; reflexivity|]. split; [reflexivity|].
  eapply (error_is_final
            [RouteChange (Some "m1"); Settle 0 (MovieReturned (Some film))]
            (mount (Some "") false)); [reflexivity|].
  vm_compute. reflexivity.
Defined.

(** X7: no handler sets the loading flag again: once the first fetch has
    settled the skeleton is never shown again, not during a forced
    re-fetch and not after a change of the route. *)
Theorem skeleton_never_returns (es : list Event) (w w' : World) :
  isLoading (st w) = false ->
  run es w = Some w' ->
  isLoading (st w') = false.
Proof.
  apply (run_invariant (fun x => isLoading (st x) = false)).
  intros e x x'. apply step_isLoading.
Qed.

Lemma skeleton_never_returns_witness :
  isLoading (st watching) = false
  /\ exists w',
       run [RouteChange (Some "m2"); PickQuality "720p"] watching = Some w'
       /\ List.length (pending w') = 2%nat
       /\ isLoading (st w') = false.
Proof.
  split; [reflexivity|]. eexists. split; [vm_compute; reflexivity|].
  split; [reflexivity|].
  eapply (skeleton_never_returns
            [RouteChange (Some "m2"); PickQuality "720p"] watching);
    [reflexivity|].
  vm_compute. reflexivity.
Defined.

(** X8: from the mount on, the refreshing flag is set exactly while one
    step of [handleRefreshLink] is suspended, and there is never more
    than one: refreshes do not overlap. *)
Theorem one_refresh_in_flight (routeId : option string) (narrow : bool)
    (es : list Event) (w : World) :
  run es (mount routeId narrow) = Some w ->
  refreshTasks (pending w) = (if isRefreshing (st w) then 1 else 0)%nat
  /\ (refreshTasks (pending w) <= 1)%nat.
Proof.
  intros E.
  assert (I : oneRefresh w).
  { revert E. apply (run_invariant oneRefresh).
    - intros e x x'. apply step_oneRefresh.
    - unfold oneRefresh.
      destruct (mount_pending routeId narrow) as (-> & -> & _). reflexivity. }
  unfold oneRefresh in I. split; [exact I|].
  rewrite I. destruct (isRefreshing (st w)); lia.
Qed.

Lemma one_refresh_in_flight_witness :
  exists w,
    run overlappingPick (mount (Some "m1") false) = Some w
    /\ List.length (pending w) = 2%nat
    /\ isRefreshing (st w) = true
    /\ refreshTasks (pending w) = 1%nat.
Proof.
  eexists. split; [vm_compute; reflexivity|].
  split; [reflexivity|]. split; [reflexivity|].
  refine (proj1 (one_refresh_in_flight (Some "m1") false overlappingPick _ _)).
  vm_compute. reflexivity.
Defined.

(** X9: a turn of the event loop either leaves the player handle alone
    or, with the handle live, calls [src], [load] and [play] on it in
    that order with the type "video/mp4"; so from the mount on the log of
    player calls is a sequence of such triples. *)
Theorem player_calls_src_load_play (routeId : option string) (narrow : bool)
    (es : list Event) (w : World) :
  run es (mount routeId narrow) = Some w ->
  loadsThenPlays (playerCalls w) = true
  /\ forall e w',
       step e w = Some w' ->
       playerCalls w' = playerCalls w
       \/ (player w = true
           /\ exists u, playerCalls w' = (playerCalls w ++ [Src u mp4; Load; Play])%list).
Proof.
  intros E. split.
  - revert E.
    apply (run_invariant (fun x => loadsThenPlays (playerCalls x) = true)).
    + intros e x x' Hx Hs.
      destruct (step_playerCalls e x x' Hs) as [->|(_ & u & ->)];
        [exact Hx|now apply loadsThenPlays_app].
    + destruct (mount_pending routeId narrow) as (_ & _ & -> & _). reflexivity.
  - intros e w'. apply step_playerCalls.
Qed.

Lemma player_calls_src_load_play_witness :
  exists w,
    run staleErrorTrace (mount (Some "m1") false) = Some w
    /\ playerCalls w = [Src "b" mp4; Load; Play]
    /\ loadsThenPlays (playerCalls w) = true.
Proof.
  eexists. split; [vm_compute; reflexivity|]. split; [reflexivity|].
  refine (proj1 (player_calls_src_load_play (Some "m1") false staleErrorTrace _ _)).
  vm_compute. reflexivity.
Defined.

(** X10: from the mount on, the page never posts a refresh for an empty
    quality label, and every fetch that is not forced carries a non-empty
    identifier. *)
Theorem requests_guarded (routeId : option string) (narrow : bool)
    (es : list Event) (w : World) :
  run es (mount routeId narrow) = Some w ->
  forall r, In r (requests w) -> guardedRequest r = true.
Proof.
  intros E. apply forallb_forall. revert E.
  apply (run_invariant (fun x => forallb guardedRequest (requests x) = true)).
  - intros e x x'. apply step_requests.
  - apply mount_pending.
Qed.

Lemma requests_guarded_witness :
  exists w,
    run overlappingPick (mount (Some "m1") false) = Some w
    /\ In (PostRefreshLink "m1" "1080p") (requests w)
    /\ guardedRequest (PostRefreshLink "m1" "1080p") = true.
Proof.
  destruct (run overlappingPick (mount (Some "m1") false)) as [w|] eqn:E.
  - exists w. split; [reflexivity|].
    assert (H : In (PostRefreshLink "m1" "1080p") (requests w)).
    { vm_compute in E. injection E as <-. simpl. tauto. }
    split; [exact H|].
    exact (requests_guarded (Some "m1") false overlappingPick w E _ H).
  - vm_compute in E. discriminate E.
Defined.

(** ** Loading, and failing to load *)

Ltac finish :=
  simpl; rewrite complete_done by (simpl; lia);
  eexists; split; [reflexivity|]; simpl; rewrite <- ?app_assoc; simpl;
  repeat split; reflexivity.

Lemma truthy_str_nonempty (q : string) : q <> "" -> truthy_str (Some q) = true.
Proof. intros H. simpl. now rewrite (proj2 (String.eqb_neq _ _) H). Qed.

Lemma find_first (q : VideoQuality) (rest : list VideoQuality) :
  find (fun v => quality v =? quality q) (q :: rest) = Some q.
Proof. simpl. now rewrite String.eqb_refl. Qed.

Lemma find_absent (label : string) (l : list VideoQuality) :
  ~ In label (map quality l) ->
  find (fun v => quality v =? label) l = None.
Proof.
  induction l as [|v l IH]; simpl; [reflexivity|].
  intros H. destruct (quality v =? label) eqn:E.
  - apply String.eqb_eq in E. elim H. now left.
  - apply IH. intros Hin. apply H. now right.
Qed.

(** X11: the first load.  Mounting on a non-empty identifier issues one
    non-forced fetch; when the record arrives the detail view is shown
    with the default quality selected.  If the first entry has a
    non-empty label, the player's source is that entry's URL and its menu
    item is the checked one; if the record has no entries, the menu is
    empty and the player's source is the empty string. *)
Theorem first_load (i : string) (narrow : bool) (data : Movie) :
  i <> "" ->
  exists w,
    run [Settle 0 (MovieReturned (Some data))] (mount (Some i) narrow) = Some w
    /\ requests w = [GetMovieById i false]
    /\ pending w = []
    /\ view (st w) = Detail
    /\ movie (st w) = Some data
    /\ selectedQuality (st w) = Some (firstQuality data)
    /\ (forall q rest, video_qualities data = q :: rest -> quality q <> "" ->
          getSelectedQualityUrl (st w) = url q
          /\ checked (st w) (quality q) = true)
    /\ (video_qualities data = [] ->
          menuLabels (st w) = [] /\ getSelectedQualityUrl (st w) = "").
Proof.
  intros Hi. apply String.eqb_neq in Hi.
  exists (mkWorld
            (mkState (Some i) (Some data) false None (Some (firstQuality data))
                     false narrow false false)
            false [GetMovieById i false] [] []).
  split.
  { unfold mount, fetchMovieData, initialState. project. rewrite Hi.
    reflexivity. }
  do 5 (split; [reflexivity|]). split.
  - intros q rest E Hq. apply String.eqb_neq in Hq.
    unfold getSelectedQualityUrl, checked, firstQuality. project.
    rewrite E, Hq, Hq, find_first. split; [reflexivity|apply String.eqb_refl].
  - intros E. unfold menuLabels, getSelectedQualityUrl, firstQuality. project.
    rewrite E. split; reflexivity.
Qed.

Lemma first_load_witness :
  exists w,
    run [Settle 0 (MovieReturned (Some film))] (mount (Some "m1") true) = Some w
    /\ requests w = [GetMovieById "m1" false]
    /\ pending w = []
    /\ view (st w) = Detail
    /\ movie (st w) = Some film
    /\ selectedQuality (st w) = Some "720p"
    /\ getSelectedQualityUrl (st w) = "a"
    /\ checked (st w) "720p" = true.
Proof.
  destruct (first_load "m1" true film) as (w & E & Hr & Hp & Hv & Hm & Hs & Hq & _);
    [discriminate|].
  exists w. repeat split; try assumption.
  - apply (Hq (mkVideoQuality "720p" "a") [mkVideoQuality "1080p" "b"] eq_refl).
    discriminate.
  - apply (Hq (mkVideoQuality "720p" "a") [mkVideoQuality "1080p" "b"] eq_refl).
    discriminate.
Defined.

(** X12: a missing or empty route parameter never reaches the movie
    service: the effect issues no request and suspends nothing, sets the
    message "Invalid movie ID", clears the loading flag and leaves the
    page on the not-found view. *)
Theorem invalid_route_id (newId : option string) (narrow : bool) (w : World) :
  truthy_str newId = false ->
  (requests (routeChange newId w) = requests w
   /\ pending (routeChange newId w) = pending w
   /\ error (st (routeChange newId w)) = Some "Invalid movie ID"
   /\ view (st (routeChange newId w)) = NotFound)
  /\ (requests (mount newId narrow) = []
      /\ pending (mount newId narrow) = []
      /\ error (st (mount newId narrow)) = Some "Invalid movie ID"
      /\ view (st (mount newId narrow)) = NotFound).
Proof.
  intros H. unfold routeChange, mount, fetchMovieData, invalidId, fetch_done,
    initialState. project.
  destruct newId as [i|].
  - simpl in H. apply negb_false_iff in H. rewrite H. project.
    repeat split; reflexivity.
  - project. repeat split; reflexivity.
Qed.

Lemma invalid_route_id_witness :
  (requests (routeChange (Some "") watching) = requests watching
   /\ pending (routeChange (Some "") watching) = pending watching
   /\ error (st (routeChange (Some "") watching)) = Some "Invalid movie ID"
   /\ view (st (routeChange (Some "") watching)) = NotFound)
  /\ (requests (mount (Some "") false) = []
      /\ pending (mount (Some "") false) = []
      /\ error (st (mount (Some "") false)) = Some "Invalid movie ID"
      /\ view (st (mount (Some "") false)) = NotFound).
Proof. apply (invalid_route_id (Some "") false watching). reflexivity. Defined.

(** X13: a quality pick whose forced fetch brings no record (null, or
    the call throws) sets the error message, so the page drops to the
    not-found view with the old record kept; the handler still selects
    the label, flags the dialog open and, with a live handle, loads and
    plays the entry it had found. *)
Theorem quality_pick_failed_fetch (w : World) (label i : string)
    (qualityData : VideoQuality) (o play : Outcome) :
  findQuality label (movie (st w)) = Some qualityData ->
  movieId (st w) = Some i -> i <> "" ->
  isFetchFailure o = true ->
  isPlayOutcome play = true ->
  exists w',
    complete [o; play] (List.length (pending w))
             (handleQualitySelect (st w) label w) = Some w'
    /\ error (st w') =
         Some (match o with
               | Rejected => "Failed to load movie details"
               | _ => "Movie not found"
               end)
    /\ detailShown (st w') = false
    /\ movie (st w') = movie (st w)
    /\ selectedQuality (st w') = Some label
    /\ showPlayer (st w') = true
    /\ playerCalls w' =
         (if player w
          then playerCalls w ++ [Src (url qualityData) mp4; Load; Play]
          else playerCalls w)%list.
Proof.
  intros Hfind Hid Hne Hfail Hplay.
  unfold handleQualitySelect. rewrite Hfind.
  unfold fetchMovieData. apply String.eqb_neq in Hne.
  destruct w as [[mid mv ld er sq sp mb rf pe] pl rq pc pd]. project.
  rewrite Hid, Hne.
  erewrite complete_more; [|reflexivity|simpl; lia].
  unfold detailShown, view.
  destruct o as [[d|]| | |]; try discriminate Hfail; cbn [settle];
    unfold fetchMovieData_returned, fetchMovieData_threw, fetch_done,
      handleQualitySelect_resume; project;
    (destruct pl; project;
     [ erewrite complete_more; [|reflexivity|simpl; lia];
       destruct play; try discriminate Hplay; cbn [settle];
       unfold handleVideoError; project;
       try (destruct mv; [|discriminate Hfind];
            destruct (negb (truthy_str sq) || rf));
       finish
     | finish ]).
Qed.

Lemma quality_pick_failed_fetch_witness :
  exists w',
    complete [Rejected; PlayStarted] (List.length (pending watching))
             (handleQualitySelect (st watching) "720p" watching) = Some w'
    /\ error (st w') = Some "Failed to load movie details"
    /\ detailShown (st w') = false
    /\ movie (st w') = Some film
    /\ selectedQuality (st w') = Some "720p"
    /\ showPlayer (st w') = true
    /\ playerCalls w' = [Src "a" mp4; Load; Play].
Proof.
  apply (quality_pick_failed_fetch watching "720p" "m1" (mkVideoQuality "720p" "a")
           Rejected PlayStarted); try reflexivity.
  discriminate.
Defined.

(** ** The source handed to the player *)

(** X14: [getSelectedQualityUrl] never fails: it is the empty string
    when the selected label is not among the record's labels, and a
    non-empty result is always the URL of an entry of the current record
    that carries the selected label. *)
Theorem getSelectedQualityUrl_sound (s : State) :
  (forall q, selectedQuality s = Some q -> ~ In q (menuLabels s) ->
             getSelectedQualityUrl s = "")
  /\ (getSelectedQualityUrl s <> "" ->
      exists m v,
        movie s = Some m /\ In v (video_qualities m)
        /\ selectedQuality s = Some (quality v)
        /\ getSelectedQualityUrl s = url v).
Proof.
  unfold getSelectedQualityUrl, menuLabels. split.
  - intros q Hq Hn. rewrite Hq. destruct (movie s) as [m|]; [|reflexivity].
    destruct (q =? ""); [reflexivity|]. now rewrite (find_absent q _ Hn).
  - destruct (movie s) as [m|]; [|intros H; now elim H].
    destruct (selectedQuality s) as [q|]; [|intros H; now elim H].
    destruct (q =? ""); [intros H; now elim H|].
    destruct (find _ _) as [v|] eqn:F; [|intros H; now elim H].
    intros _. apply find_some in F as [Hin Hq]. apply String.eqb_eq in Hq.
    exists m, v. subst q. repeat split. exact Hin.
Qed.

Lemma getSelectedQualityUrl_sound_witness :
  getSelectedQualityUrl (setSelectedQuality (Some "4K") (st watching)) = ""
  /\ exists m v,
       movie (st watching) = Some m /\ In v (video_qualities m)
       /\ selectedQuality (st watching) = Some (quality v)
       /\ getSelectedQualityUrl (st watching) = url v.
Proof.
  split.
  - apply (proj1 (getSelectedQualityUrl_sound
                    (setSelectedQuality (Some "4K") (st watching))) "4K" eq_refl).
    simpl. intros [E|[E|[]]]; discriminate E.
  - apply (proj2 (getSelectedQualityUrl_sound (st watching))).
    simpl. discriminate.
Defined.

(** X15: take a page with a valid route identifier, a live player handle
    and a non-empty quality selected, and a pick of a non-empty label that
    the current record holds.  After the pick has run to its end with
    nothing in between (the forced fetch returns a record, the play
    promise settles), the source computed for the player from the new
    state is the URL of the picked label in the freshly fetched record
    (the empty string if that record lacks the label), while the call made
    on the live handle carried the URL found before the fetch. *)
Theorem quality_pick_src_prop (w : World) (label i : string) (qd : VideoQuality)
    (data : Movie) (play : Outcome) :
  findQuality label (movie (st w)) = Some qd ->
  movieId (st w) = Some i -> i <> "" ->
  truthy_str (selectedQuality (st w)) = true ->
  player w = true ->
  isPlayOutcome play = true ->
  label <> "" ->
  exists w',
    complete [MovieReturned (Some data); play] (List.length (pending w))
             (handleQualitySelect (st w) label w) = Some w'
    /\ getSelectedQualityUrl (st w') =
         match findQuality label (Some data) with
         | Some v => url v
         | None => ""
         end
    /\ playerCalls w' = (playerCalls w ++ [Src (url qd) mp4; Load; Play])%list.
Proof.
  intros Hfind Hid Hne Hsel Hpl Hplay Hl.
  destruct (handleQualitySelect_run w label i qd data play
              Hfind Hid Hne Hsel Hpl Hplay)
    as (w' & E & Hs & Hm & _ & _ & Hc & _).
  exists w'. split; [exact E|]. split; [|exact Hc].
  unfold getSelectedQualityUrl, findQuality. rewrite Hm, Hs.
  now rewrite (proj2 (String.eqb_neq _ _) Hl).
Qed.

Lemma quality_pick_src_prop_witness :
  exists w',
    complete [MovieReturned (Some renewed); PlayStarted]
             (List.length (pending watching))
             (handleQualitySelect (st watching) "1080p" watching) = Some w'
    /\ getSelectedQualityUrl (st w') = "x"
    /\ playerCalls w' = (playerCalls watching ++ [Src "b" mp4; Load; Play])%list.
Proof.
  apply (quality_pick_src_prop watching "1080p" "m1" (mkVideoQuality "1080p" "b")
           renewed PlayStarted); try reflexivity; discriminate.
Defined.

(** X16: a change of the route keeps the selected label.  Take a page
    with a non-empty quality selected and no error message set, and a
    change to a non-empty identifier whose record has no entry with that
    label.  Once the record has arrived the page shows it, the detail view
    is on screen, with the stale label still selected: no menu item is
    checked and the source computed for the player is the empty string. *)
Theorem route_change_stale_selection (w : World) (q i : string) (data : Movie) :
  selectedQuality (st w) = Some q -> q <> "" ->
  truthy_str (error (st w)) = false ->
  i <> "" ->
  ~ In q (map quality (video_qualities data)) ->
  exists w',
    complete [MovieReturned (Some data)] (List.length (pending w))
             (routeChange (Some i) w) = Some w'
    /\ view (st w') = Detail
    /\ movieId (st w') = Some i
    /\ movie (st w') = Some data
    /\ selectedQuality (st w') = Some q
    /\ getSelectedQualityUrl (st w') = ""
    /\ (forall label, In label (menuLabels (st w')) -> checked (st w') label = false).
Proof.
  intros Hq Hne He Hi Hn.
  apply String.eqb_neq in Hi.
  destruct w as [[mid mv ld er sq sp mb rf pe] pl rq pc pd]. project. subst sq.
  unfold routeChange, fetchMovieData. project. rewrite Hi.
  erewrite complete_more; [|reflexivity|simpl; lia].
  cbn [settle]. unfold fetchMovieData_returned, fetch_done. project.
  rewrite (truthy_str_nonempty q Hne). cbn [negb].
  rewrite complete_done by (simpl; lia).
  eexists. split; [reflexivity|]. project.
  split; [unfold view; project; now rewrite He|].
  do 3 (split; [reflexivity|]). split.
  - unfold getSelectedQualityUrl. project.
    rewrite (proj2 (String.eqb_neq _ _) Hne). now rewrite (find_absent q _ Hn).
  - unfold menuLabels, checked. project. intros label Hin.
    apply String.eqb_neq. intros ->. now apply Hn.
Qed.

Lemma route_change_stale_selection_witness :
  exists w',
    complete [MovieReturned (Some otherFilm)] (List.length (pending watching))
             (routeChange (Some "m2") watching) = Some w'
    /\ view (st w') = Detail
    /\ movieId (st w') = Some "m2"
    /\ movie (st w') = Some otherFilm
    /\ selectedQuality (st w') = Some "1080p"
    /\ getSelectedQualityUrl (st w') = ""
    /\ (forall label, In label (menuLabels (st w')) -> checked (st w') label = false).
Proof.
  apply (route_change_stale_selection watching "1080p" "m2" otherFilm);
    try reflexivity; try discriminate.
  simpl. intros [E|[]]. discriminate E.
Defined.

(** ** A refresh that finds no record *)

(** X17: when the endpoint answers with a new_url but the forced
    re-fetch returns no record, the refresh ends without an error of any
    kind (no message, playbackError false, refreshing cleared) and with
    the record gone: the detail view is no longer shown, and neither a
    quality pick, nor the player's error callback, nor the refresh button
    is available any more. *)
Theorem refresh_null_record (w : World) (res : RefreshLinkResponse) :
  refreshArmed (st w) = true ->
  new_url res <> "" ->
  exists w',
    complete [PostReturned res; MovieReturned None] (List.length (pending w))
             (handleRefreshLink (st w) w) = Some w'
    /\ movie (st w') = None
    /\ error (st w') = error (st w)
    /\ playbackError (st w') = false
    /\ isRefreshing (st w') = false
    /\ playerCalls w' = playerCalls w
    /\ detailShown (st w') = false
    /\ (forall label, step (PickQuality label) w' = None)
    /\ step VideoError w' = None
    /\ step ClickRefresh w' = None.
Proof.
  intros Harm Hurl. apply String.eqb_neq in Hurl.
  destruct (refreshArmed_inv _ Harm) as (m & q & Hm & Hq & Hne & Hr).
  rewrite (handleRefreshLink_armed w m q Hm Hq Hne Hr).
  destruct w as [[mid mv ld er sq sp mb rf pe] pl rq pc pd].
  erewrite complete_more; [|reflexivity|simpl; lia].
  cbn [settle]. unfold handleRefreshLink_posted. rewrite Hurl.
  erewrite complete_more; [|reflexivity|simpl; lia].
  cbn [settle]. unfold handleRefreshLink_refetched, refresh_finally.
  cbn [findQuality]. rewrite complete_done by (simpl; lia).
  eexists. split; [reflexivity|]. project.
  do 5 (split; [reflexivity|]).
  match goal with
  | |- detailShown ?s = false /\ _ => assert (D : detailShown s = false)
  end.
  { unfold detailShown, view. project.
    destruct ld; [reflexivity|]. now destruct (truthy_str er). }
  split; [exact D|].
  unfold step. project. rewrite D. repeat split.
Qed.

Lemma refresh_null_record_witness :
  exists w',
    complete [PostReturned (link "x"); MovieReturned None]
             (List.length (pending failedPlayback))
             (handleRefreshLink (st failedPlayback) failedPlayback) = Some w'
    /\ movie (st w') = None
    /\ error (st w') = error (st failedPlayback)
    /\ playbackError (st w') = false
    /\ isRefreshing (st w') = false
    /\ playerCalls w' = playerCalls failedPlayback
    /\ detailShown (st w') = false
    /\ (forall label, step (PickQuality label) w' = None)
    /\ step VideoError w' = None
    /\ step ClickRefresh w' = None.
Proof.
  apply (refresh_null_record failedPlayback (link "x")); [reflexivity|].
  simpl. discriminate.
Defined.

(** ** Closing the dialog *)

(** X18: closing the dialog cancels nothing: the suspended handlers and
    the requests stay as they are, and a quality pick that is still
    waiting for its fetch flags the dialog open again when the fetch
    settles, whatever the fetch brings. *)
Theorem close_does_not_cancel (w : World) (c : State) (qualityData : VideoQuality)
    (l : list Task) (o : Outcome) :
  pending w = (l ++ [FetchPending c (FromQualitySelect qualityData)])%list ->
  isMovieOutcome o = true ->
  pending (handleClosePlayer w) = pending w
  /\ requests (handleClosePlayer w) = requests w
  /\ showPlayer (st (handleClosePlayer w)) = false
  /\ exists w',
       resume o (handleClosePlayer w) = Some w'
       /\ showPlayer (st w') = true.
Proof.
  intros Hp Ho. do 3 (split; [reflexivity|]).
  rewrite (resume_last o (handleClosePlayer w) l _ Hp).
  destruct w as [s pl rq pc pd]. unfold handleClosePlayer. project.
  destruct o as [[d|]| | |]; try discriminate Ho; cbn [settle];
    unfold fetchMovieData_returned, fetchMovieData_threw, fetch_done,
      handleQualitySelect_resume; project;
    destruct pl; try destruct (negb (truthy_str (selectedQuality c)));
    eexists; (split; [reflexivity|]); reflexivity.
Qed.

Lemma close_does_not_cancel_witness :
  showPlayer
    (st (handleClosePlayer
           (handleQualitySelect (st failedPlayback) "720p" failedPlayback))) = false
  /\ exists w',
       resume Rejected
         (handleClosePlayer
            (handleQualitySelect (st failedPlayback) "720p" failedPlayback)) = Some w'
       /\ showPlayer (st w') = true.
Proof.
  pose proof (close_does_not_cancel
                (handleQualitySelect (st failedPlayback) "720p" failedPlayback)
                (st failedPlayback) (mkVideoQuality "720p" "a") [] Rejected
                eq_refl eq_refl) as (_ & _ & H3 & H4).
  split; assumption.
Defined.

End DetailPageMore.
